(** * Matrix-factorisation recommender: the training, recommendation and
      evaluation cells of the rating-prediction notebook, embedded in Rocq.

    The notebook keeps its parameters in module-level numpy arrays that the
    training loop mutates in place.  The embedding follows it cell by cell:
    - factor entries are IEEE 754 binary64 numbers ([spec_float], with the
      Standard Library's executable round-to-nearest-even operations);
    - a numpy matrix is the list of its rows, fancy indexing is written out
      with Python's index rules (negative indices count from the end, an
      index outside [-rows, rows) raises [IndexError]);
    - the notebook's globals are a record threaded through a state monad in
      which a raised exception keeps the state reached so far;
    - the two functions whose bodies the notebook leaves as an exercise
      ([compute_gradients], [get_prediction]) and the library random
      sources are the operations of an interface, [Externals]; the design
      document's description of the two bodies is given as one instance;
    - precision values, which are ratios of two Python ints, and their mean
      are exact rationals. *)

From Stdlib Require Import ZArith QArith Lia SpecFloat.
From stdpp Require Import base option list sorting gmap.

Local Open Scope Z_scope.

(** ** Binary64 arithmetic *)

Module F64.

Definition float := spec_float.

Definition prec : Z := 53.
Definition emax : Z := 1024.

Definition add : float → float → float := SFadd prec emax.
Definition sub : float → float → float := SFsub prec emax.
Definition mul : float → float → float := SFmul prec emax.
Definition div : float → float → float := SFdiv prec emax.
Definition sqrt : float → float := SFsqrt prec emax.

Definition zero : float := S754_zero false.
Definition neg_zero : float := S754_zero true.
Definition nan : float := S754_nan.

(** The float nearest to an integer (Python's int-to-float conversion). *)
Definition of_Z (z : Z) : float := binary_normalize prec emax z 0 false.

Definition is_finite (x : float) : bool :=
  match x with
  | S754_zero _ | S754_finite _ _ _ => true
  | S754_infinity _ | S754_nan => false
  end.

Definition is_zero (x : float) : bool :=
  match x with S754_zero _ => true | _ => false end.

Definition is_neg_zero (x : float) : bool :=
  match x with S754_zero true => true | _ => false end.

Definition eq_dec (x y : float) : {x = y} + {x ≠ y}.
Proof.
  decide equality; try apply Bool.bool_dec;
    try apply Z.eq_dec; apply Pos.eq_dec.
Defined.

End F64.

Abbreviation float := F64.float.

#[global] Instance float_eq_dec : EqDecision float := F64.eq_dec.

(** ** Python exceptions and results *)

Inductive exn := IndexError | ValueError | ZeroDivisionError | KeyError.

Inductive res (A : Type) :=
| Ok (a : A)
| Raise (e : exn).
Arguments Ok {A} a.
Arguments Raise {A} e.

#[global] Instance res_ret : MRet res := λ A a, Ok a.
#[global] Instance res_bind : MBind res := λ A B f m,
  match m with
  | Ok a => f a
  | Raise e => Raise e
  end.

(** ** numpy arrays *)

(** A vector is the list of its entries, a matrix the list of its rows. *)
Abbreviation vector := (list float).
Abbreviation matrix := (list (list float)).

Module Np.

(** [a[i]] on an axis of length [n]: Python resolves a negative index
    from the end and raises [IndexError] outside [-n, n). *)
Definition py_index (n : nat) (i : Z) : res nat :=
  if (0 <=? i) && (i <? Z.of_nat n) then Ok (Z.to_nat i)
  else if (- Z.of_nat n <=? i) && (i <? 0) then Ok (Z.to_nat (i + Z.of_nat n))
  else Raise IndexError.

Definition row (A : matrix) (k : nat) : res vector :=
  match A !! k with
  | Some r => Ok r
  | None => Raise IndexError
  end.

(** [A[idx]] with an integer array [idx]: a fresh array holding the rows
    in the order of [idx]; a repeated index gives a repeated row. *)
Definition take_rows (A : matrix) (idx : list Z) : res matrix :=
  mapM (λ i, k ← py_index (length A) i; row A k) idx.

(** [A[idx] = D], row by row in the order of [idx]: when an index is
    repeated the later assignment overwrites the earlier one. *)
Fixpoint put_rows (A : matrix) (ks : list nat) (D : matrix) : matrix :=
  match ks, D with
  | k :: ks', r :: D' => put_rows (<[k := r]> A) ks' D'
  | _, _ => A
  end.

Definition same_shape (G B : matrix) : bool :=
  Nat.eqb (length G) (length B)
  && forallb (λ p, Nat.eqb (length (fst p)) (length (snd p))) (zip G B).

Definition vsub (x y : vector) : vector := zip_with F64.sub x y.
Definition vmul (x y : vector) : vector := zip_with F64.mul x y.
Definition msub (G B : matrix) : matrix := zip_with vsub G B.

(** [c * B] for a Python float [c]. *)
Definition smul (c : float) (B : matrix) : matrix := map (map (F64.mul c)) B.

(** [A[idx] -= B].  Python evaluates it as [A[idx] = A[idx] - B]: the
    rows are gathered into a temporary, [B] is subtracted from the
    temporary, and the temporary is assigned back through [idx].  The
    operand is taken with the shape of the gathered rows, one row per
    index; any other shape is reported as [ValueError] (numpy's
    broadcasting of smaller operands is not used by the notebook). *)
Definition isub_rows (A : matrix) (idx : list Z) (B : matrix) : res matrix :=
  ks ← mapM (py_index (length A)) idx;
  G ← mapM (row A) ks;
  if same_shape G B then Ok (put_rows A ks (msub G B)) else Raise ValueError.

(** [np.sum(x)], adding the entries from left to right (on long arrays
    numpy adds in blocks, which can change the last bits of the result and
    nothing else). *)
Definition sum (x : vector) : float := fold_left F64.add x F64.zero.

(** [np.sum(u * v, axis=1)] *)
Definition rowsum_mul (u v : matrix) : vector :=
  zip_with (λ x y, sum (vmul x y)) u v.

(** [np.mean(x)]: the sum divided by the number of entries; on an empty
    array this is [0/0], which is [nan]. *)
Definition mean (x : vector) : float :=
  F64.div (sum x) (F64.of_Z (Z.of_nat (length x))).

End Np.

(** ** Data handed over by the dataset wrapper *)

(** One row of a ratings frame (columns [user], [item], [rating]); ids are
    Python ints, 1-based in the data set. *)
Record Rating := { user : Z; item : Z; rating : float }.

(** [recsys_training.data.Dataset] after [rating_split]. *)
Record Dataset := {
  n_users : nat;
  n_items : nat;
  users : list Z;
  train_ratings : list Rating;
  test_ratings : list Rating
}.

(** [Dict[int, Dict[int, float]]]: user id to item id to rating. *)
Abbreviation UserRatings := (gmap Z (gmap Z float)).

(** The hyper-parameters set at the top of the training cells. *)
Record Config := {
  d : nat;
  epochs : Z;
  batch_size : Z;
  learning_rate : float;
  seed : Z
}.

(** An ordered Python dict of predictions, best first: item id to the
    value stored under ['pred']. *)
Abbreviation Predictions := (list (Z * float)).

(** ** What the notebook leaves to libraries and to the reader

    [np.random] and [DataFrame.sample] are library code; the bodies of
    [compute_gradients] and [get_prediction] are left as an exercise
    ([pass]).  They are the operations of this interface. *)
Class Externals := {
  RandomState : Type;
  (** [np.random.seed(seed)]: the generator state after seeding. *)
  np_random_seed : Z → RandomState;
  (** [np.random.normal(0, 1, (rows, cols))]: the draws and the state left. *)
  np_random_normal : RandomState → nat → nat → matrix * RandomState;
  (** [frame.sample(frac=1, random_state=seed)]: the frame's rows in the
      order fixed by [seed] (a private generator, not the global one). *)
  df_sample : list Rating → Z → list Rating;
  (** [compute_gradients(ratings, u, v)] returns [(u_grad, v_grad)]. *)
  compute_gradients : vector → matrix → matrix → matrix * matrix;
  (** [get_prediction(user, user_ratings, items, data, user_factors,
      item_factors, remove_known_pos)] *)
  get_prediction :
    Z → UserRatings → option (list Z) → Dataset → matrix → matrix → bool →
    res Predictions
}.

(** ** The notebook's module-level variables *)

Record Globals `{Externals} := {
  rng : RandomState;
  user_factors : matrix;
  item_factors : matrix;
  ratings : list Rating;
  num_batches : Z;
  rmse_trace : list float;
  rmse_test_trace : list float
}.

Section Notebook.
Context `{Ext : Externals}.

Definition set_user_factors (U : matrix) (g : Globals) : Globals :=
  {| rng := rng g; user_factors := U; item_factors := item_factors g;
     ratings := ratings g; num_batches := num_batches g;
     rmse_trace := rmse_trace g; rmse_test_trace := rmse_test_trace g |}.

Definition set_item_factors (V : matrix) (g : Globals) : Globals :=
  {| rng := rng g; user_factors := user_factors g; item_factors := V;
     ratings := ratings g; num_batches := num_batches g;
     rmse_trace := rmse_trace g; rmse_test_trace := rmse_test_trace g |}.

Definition append_traces (r rt : float) (g : Globals) : Globals :=
  {| rng := rng g; user_factors := user_factors g;
     item_factors := item_factors g;
     ratings := ratings g; num_batches := num_batches g;
     rmse_trace := rmse_trace g ++ [r];
     rmse_test_trace := rmse_test_trace g ++ [rt] |}.

(** *** Statements that mutate the globals and may raise

    A raised exception leaves the globals as they were at that moment:
    arrays written before it stay written. *)
Definition M (A : Type) : Type := Globals → res A * Globals.

#[global] Instance M_ret : MRet M := λ A a g, (Ok a, g).
#[global] Instance M_bind : MBind M := λ A B f m g,
  match m g with
  | (Ok a, g') => f a g'
  | (Raise e, g') => (Raise e, g')
  end.

Definition get : M Globals := λ g, (Ok g, g).
Definition modify (f : Globals → Globals) : M unit := λ g, (Ok tt, f g).
Definition lift {A} (r : res A) : M A := λ g, (r, g).

(** [for x in l: body(x)] *)
Fixpoint for_each {A} (body : A → M unit) (l : list A) : M unit :=
  match l with
  | [] => mret tt
  | x :: l' => body x ≫= λ _, for_each body l'
  end.

(** [range(n)] *)
Definition range (n : Z) : list Z := seqZ 0 n.

(** [l[start:stop]] ([iloc] slicing): bounds are clipped to the length,
    negative bounds count from the end. *)
Definition clip (len i : Z) : Z :=
  if i <? 0 then Z.max (i + len) 0 else Z.min i len.

Definition iloc {A} (l : list A) (start stop : Z) : list A :=
  let len := Z.of_nat (length l) in
  let a := clip len start in
  let b := clip len stop in
  take (Z.to_nat (b - a)) (drop (Z.to_nat a) l).

(** *** Cell: initialise the factors and shuffle the training ratings

    [np.random.seed(seed)]
    [user_factors = np.random.normal(0, 1, (m, d))]
    [item_factors = np.random.normal(0, 1, (n, d))]
    [ratings = data.train_ratings[...].sample(frac=1, random_state=seed)] *)
Definition cell_init (data : Dataset) (cfg : Config) : M unit := λ g,
  let s0 := np_random_seed (seed cfg) in
  let '(U, s1) := np_random_normal s0 (n_users data) (d cfg) in
  let '(V, s2) := np_random_normal s1 (n_items data) (d cfg) in
  (Ok tt,
   {| rng := s2; user_factors := U; item_factors := V;
      ratings := df_sample (train_ratings data) (seed cfg);
      num_batches := num_batches g;
      rmse_trace := rmse_trace g; rmse_test_trace := rmse_test_trace g |}).

(** [int(np.ceil(a / b))] for Python ints with [b] not zero (the float
    quotient is exact enough for every length below 2^53). *)
Definition ceil_div (a b : Z) : Z := - ((- a) / b).

(** *** Cell: batch count and empty traces

    [num_batches = int(np.ceil(len(ratings) / batch_size))]
    [rmse_trace = []]; [rmse_test_trace = []] *)
Definition cell_config (cfg : Config) : M unit := λ g,
  if batch_size cfg =? 0 then (Raise ZeroDivisionError, g)
  else
    (Ok tt,
     {| rng := rng g; user_factors := user_factors g;
        item_factors := item_factors g; ratings := ratings g;
        num_batches := ceil_div (Z.of_nat (length (ratings g))) (batch_size cfg);
        rmse_trace := []; rmse_test_trace := [] |}).

(** *** [get_rmse(rating, u, v)]

    The three arrays are passed with one row per rating; any other
    combination of shapes is reported as [ValueError]. *)
Definition get_rmse (rating : vector) (u v : matrix) : res float :=
  if Np.same_shape u v && Nat.eqb (length rating) (length u) then
    let pred := Np.rowsum_mul u v in
    let error := Np.vsub rating pred in
    Ok (F64.sqrt (Np.mean (Np.vmul error error)))
  else Raise ValueError.

(** *** Cell: the training loop *)

(** Row [r] of an [n]-row array is the row that index [i] selects. *)
Definition selects (n : nat) (i : Z) (r : nat) : Prop :=
  Np.py_index n i = Ok r.

(** The row that index [id - 1] selects among [m] rows when [id] lies in
    [1 - m, m]. *)
Definition resolved_row (m id : Z) : nat :=
  Z.to_nat (if id <=? 0 then id - 1 + m else id - 1).

(** [minibatch['user'].values - 1] and [minibatch['item'].values - 1] *)
Definition user_rows (mb : list Rating) : list Z := (λ r, user r - 1) <$> mb.
Definition item_rows (mb : list Rating) : list Z := (λ r, item r - 1) <$> mb.

(** [ratings.iloc[idx * batch_size:(idx + 1) * batch_size]] *)
Definition minibatch (cfg : Config) (g : Globals) (idx : Z) : list Rating :=
  iloc (ratings g) (idx * batch_size cfg) ((idx + 1) * batch_size cfg).

(** The body of the inner loop up to the two in-place updates. *)
Definition update_block (cfg : Config) (idx : Z)
  : M (list Rating * matrix * matrix) :=
  g ← get;
  let mb := minibatch cfg g idx in
  user_embeds ← lift (Np.take_rows (user_factors g) (user_rows mb));
  item_embeds ← lift (Np.take_rows (item_factors g) (item_rows mb));
  let grads := compute_gradients (rating <$> mb) user_embeds item_embeds in
  let user_grads := grads.1 in
  let item_grads := grads.2 in
  U ← lift (Np.isub_rows (user_factors g) (user_rows mb)
              (Np.smul (learning_rate cfg) user_grads));
  modify (set_user_factors U);;
  V ← lift (Np.isub_rows (item_factors g) (item_rows mb)
              (Np.smul (learning_rate cfg) item_grads));
  modify (set_item_factors V);;
  mret (mb, user_embeds, item_embeds).

(** The [if not idx % 300:] block.  The held-out RMSE reads the item
    factors through the test ratings' [user] column, as the cell does. *)
Definition monitor_block (data : Dataset) (idx : Z)
    (batch : list Rating * matrix * matrix) : M unit :=
  let '(mb, user_embeds, item_embeds) := batch in
  if idx mod 300 =? 0 then
    rmse ← lift (get_rmse (rating <$> mb) user_embeds item_embeds);
    g ← get;
    tu ← lift (Np.take_rows (user_factors g) (user_rows (test_ratings data)));
    ti ← lift (Np.take_rows (item_factors g) (user_rows (test_ratings data)));
    rmse_test ← lift (get_rmse (rating <$> test_ratings data) tu ti);
    modify (append_traces rmse rmse_test)
  else mret tt.

(** One pass of the inner loop. *)
Definition train_batch (data : Dataset) (cfg : Config) (idx : Z) : M unit :=
  update_block cfg idx ≫= monitor_block data idx.

(** [for idx in range(num_batches): ...]; the loop body reads [epoch] in
    its [print] only. *)
Definition train_epoch (data : Dataset) (cfg : Config) (epoch : Z) : M unit :=
  g ← get;
  for_each (train_batch data cfg) (range (num_batches g)).

(** [for epoch in range(epochs): ...] *)
Definition cell_train (data : Dataset) (cfg : Config) : M unit :=
  for_each (train_epoch data cfg) (range (epochs cfg)).

(** The body of the inner loop on a batch that has been sliced out
    already: the statements of [update_block] after the slice. *)
Definition update_on (cfg : Config) (mb : list Rating)
  : M (list Rating * matrix * matrix) :=
  g ← get;
  user_embeds ← lift (Np.take_rows (user_factors g) (user_rows mb));
  item_embeds ← lift (Np.take_rows (item_factors g) (item_rows mb));
  let grads := compute_gradients (rating <$> mb) user_embeds item_embeds in
  let user_grads := grads.1 in
  let item_grads := grads.2 in
  U ← lift (Np.isub_rows (user_factors g) (user_rows mb)
              (Np.smul (learning_rate cfg) user_grads));
  modify (set_user_factors U);;
  V ← lift (Np.isub_rows (item_factors g) (item_rows mb)
              (Np.smul (learning_rate cfg) item_grads));
  modify (set_item_factors V);;
  mret (mb, user_embeds, item_embeds).

(** One pass of the inner loop given the batch and its position [idx]
    (which the monitoring cadence reads). *)
Definition train_on (data : Dataset) (cfg : Config) (step : Z * list Rating)
  : M unit :=
  update_on cfg step.2 ≫= monitor_block data step.1.

(** The elements of a list with their positions 0, 1, 2, ... *)
Definition numbered {A} (l : list A) : list (Z * A) :=
  zip (seqZ 0 (Z.of_nat (length l))) l.

(** The batches one epoch goes through, in order. *)
Definition epoch_batches (cfg : Config) (g : Globals) : list (list Rating) :=
  minibatch cfg g <$> range (num_batches g).

(** The globals when epoch [e] begins: the epochs before it have run. *)
Definition start_of_epoch (data : Dataset) (cfg : Config) (e : Z)
    (g : Globals) : Globals :=
  (for_each (train_epoch data cfg) (range e) g).2.

(** Every entry is a number (no infinity, no [nan]). *)
Definition all_finite (B : matrix) : bool := forallb (forallb F64.is_finite) B.

(** No entry is the negative zero. *)
Definition no_neg_zero (A : matrix) : bool :=
  forallb (forallb (λ x, negb (F64.is_neg_zero x))) A.

(** The gradients [compute_gradients] returns on each batch of an epoch,
    from the current factors, are finite. *)
Definition gradients_finite (cfg : Config) (g : Globals) : bool :=
  forallb
    (λ idx,
       let mb := minibatch cfg g idx in
       match Np.take_rows (user_factors g) (user_rows mb),
             Np.take_rows (item_factors g) (item_rows mb) with
       | Ok ue, Ok ie =>
           let grads := compute_gradients (rating <$> mb) ue ie in
           all_finite grads.1 && all_finite grads.2
       | _, _ => true
       end)
    (range (num_batches g)).

(** Two states that agree on what a training step reads. *)
Definition same_model (g h : Globals) : Prop :=
  user_factors h = user_factors g ∧ item_factors h = item_factors g ∧
  ratings h = ratings g ∧ num_batches h = num_batches g.

(** The part of the globals that training only reads, together with the
    shape of the two factor arrays. *)
Definition same_frame (g h : Globals) : Prop :=
  length <$> user_factors h = length <$> user_factors g ∧
  length <$> item_factors h = length <$> item_factors g ∧
  ratings h = ratings g ∧ num_batches h = num_batches g ∧ rng h = rng g.

(** The three cells run top to bottom. *)
Definition fit (data : Dataset) (cfg : Config) : M unit :=
  cell_init data cfg;; cell_config cfg;; cell_train data cfg.

End Notebook.

(** ** Recommendations and evaluation *)

Section Recommender.
Context `{Ext : Externals}.

(** The loop of [get_recommendations]: append, then stop as soon as the
    list has exactly [N] entries. *)
Fixpoint collect_until {A} (N : Z) (recommendations rest : list A) : list A :=
  match rest with
  | [] => recommendations
  | add_item :: rest' =>
      let recommendations' := recommendations ++ [add_item] in
      if Z.of_nat (length recommendations') =? N then recommendations'
      else collect_until N recommendations' rest'
  end.

(** [get_recommendations(user, N, remove_known_pos)].  [get_prediction] is
    called with its defaults: the global [user_ratings], [data] and the two
    factor arrays. *)
Definition get_recommendations (user_ratings : UserRatings) (data : Dataset)
    (g : Globals) (user : Z) (N : Z) (remove_known_pos : bool)
  : res Predictions :=
  predictions ← get_prediction user user_ratings None data
                  (user_factors g) (item_factors g) remove_known_pos;
  mret (collect_until N [] predictions).

(** [np.unique]: the sorted distinct values. *)
Definition unique (l : list Z) : list Z := merge_sort Z.le (remove_dups l).

(** [np.intersect1d(a, b)]: the sorted distinct values found in both. *)
Definition intersect1d (a b : list Z) : list Z :=
  unique (filter (λ x, x ∈ b) a).

(** [get_relevant_items(test_ratings)]: for every user of the test frame,
    in ascending order, the items of that user's rows. *)
Definition get_relevant_items (test : list Rating) : list (Z * list Z) :=
  (λ u, (u, item <$> filter (λ r, user r = u) test)) <$> unique (user <$> test).

(** [dct[k]] on an ordered dict. *)
Definition dict_get {V} (dct : list (Z * V)) (k : Z) : res V :=
  match list_find (λ p, p.1 = k) dct with
  | Some (_, (_, v)) => Ok v
  | None => Raise KeyError
  end.

(** [hits / N] for Python ints: true division, as an exact rational (the
    float Python returns is this rational rounded once). *)
Definition true_div (hits N : Z) : res Q :=
  if N =? 0 then Raise ZeroDivisionError
  else Ok (inject_Z hits / inject_Z N)%Q.

(** [len(np.intersect1d(recommendations, relevant_items[user])) / N] *)
Definition precision_at_N (relevant_items : list (Z * list Z)) (user : Z)
    (recommendations : list Z) (N : Z) : res Q :=
  rel ← dict_get relevant_items user;
  true_div (Z.of_nat (length (intersect1d recommendations rel))) N.

(** What one pass of the evaluation loop computes for a user. *)
Definition user_precision (user_ratings : UserRatings) (data : Dataset)
    (g : Globals) (relevant_items : list (Z * list Z)) (N : Z)
    (u : Z) (p : Q) : Prop :=
  ∃ recommendations,
    get_recommendations user_ratings data g u N true = Ok recommendations ∧
    precision_at_N relevant_items u (fst <$> recommendations) N = Ok p.

(** [dict.fromkeys(keys)]: every key bound to [None]. *)
Definition fromkeys (keys : list Z) : gmap Z (option Q) :=
  list_to_map ((λ u, (u, None)) <$> keys).

(** One pass of the evaluation loop for [user]. *)
Definition eval_user (user_ratings : UserRatings) (data : Dataset)
    (g : Globals) (relevant_items : list (Z * list Z)) (N : Z)
    (prec_at_N : gmap Z (option Q)) (user : Z) : res (gmap Z (option Q)) :=
  recommendations ← get_recommendations user_ratings data g user N true;
  p ← precision_at_N relevant_items user (fst <$> recommendations) N;
  mret (<[user := Some p]> prec_at_N).

Fixpoint eval_loop (step : gmap Z (option Q) → Z → res (gmap Z (option Q)))
    (prec_at_N : gmap Z (option Q)) (us : list Z) : res (gmap Z (option Q)) :=
  match us with
  | [] => Ok prec_at_N
  | u :: us' => step prec_at_N u ≫= λ P, eval_loop step P us'
  end.

(** The evaluation cell: [prec_at_N] after the loop over
    [relevant_items.keys()]. *)
Definition cell_eval (user_ratings : UserRatings) (data : Dataset)
    (g : Globals) (relevant_items : list (Z * list Z)) (N : Z)
  : res (gmap Z (option Q)) :=
  eval_loop (eval_user user_ratings data g relevant_items N)
    (fromkeys (users data)) (fst <$> relevant_items).

(** A Python float that is either [nan] or a number. *)
Inductive mean_value := MeanNaN | MeanIs (q : Q).

Definition Qsum (l : list Q) : Q := foldr Qplus 0%Q l.

(** [np.mean(l)] on exact values; the mean of no values is [nan] (numpy
    warns and returns it, nothing is raised). *)
Definition np_mean (l : list Q) : mean_value :=
  match l with
  | [] => MeanNaN
  | _ => MeanIs (Qsum l / inject_Z (Z.of_nat (length l)))%Q
  end.

(** [[val for val in prec_at_N.values() if val is not None]] *)
Definition computed_values (prec_at_N : gmap Z (option Q)) : list Q :=
  omap id (snd <$> map_to_list prec_at_N).

(** [np.mean([val for val in prec_at_N.values() if val is not None])] *)
Definition mean_precision (prec_at_N : gmap Z (option Q)) : mean_value :=
  np_mean (computed_values prec_at_N).

End Recommender.

(** ** The two exercise bodies, following the design document *)

(** Modelled from the spec: the body of [compute_gradients], which the
    notebook leaves as [pass].  Squared-error loss: prediction is the dot
    product per row, error is rating minus prediction, the user gradient
    is [-2 * error * item_vec] and the item gradient [-2 * error *
    user_vec], one row per batch entry. *)
Definition compute_gradients_spec (rating : vector) (u v : matrix)
  : matrix * matrix :=
  let pred := Np.rowsum_mul u v in
  let error := Np.vsub rating pred in
  let coef := map (F64.mul (F64.of_Z (-2))) error in
  (zip_with (λ c r, map (F64.mul c) r) coef v,
   zip_with (λ c r, map (F64.mul c) r) coef u).

(** Descending score, ties by ascending item id. *)
Definition ranks_before (p q : Z * float) : Prop :=
  SFltb q.2 p.2 = true ∨ (SFeqb p.2 q.2 = true ∧ p.1 ≤ q.1).

#[global] Instance ranks_before_dec p q : Decision (ranks_before p q).
Proof. unfold ranks_before. apply _. Defined.

(** The row of a 1-based id, refusing every id outside [1, rows]. *)
Definition row_of_id (A : matrix) (id : Z) : res vector :=
  if (1 <=? id) && (id <=? Z.of_nat (length A)) then Np.row A (Z.to_nat (id - 1))
  else Raise IndexError.

(** Modelled from the spec: the body of [get_prediction], which the
    notebook leaves as [pass].  Scores every item row (or the given
    candidates) by the dot product with the user's row, drops the ids the
    user has rated when [remove_known_pos] is set, and orders the rest by
    descending score with ties broken by ascending item id. *)
Definition get_prediction_spec (user : Z) (user_ratings : UserRatings)
    (items : option (list Z)) (data : Dataset) (U V : matrix)
    (remove_known_pos : bool) : res Predictions :=
  u ← row_of_id U user;
  let candidates := remove_dups (default (seqZ 1 (Z.of_nat (length V))) items) in
  scored ← mapM (λ i, v ← row_of_id V i; mret (i, Np.sum (Np.vmul u v)))
             candidates;
  let known : gset Z :=
    if remove_known_pos then dom (default ∅ (user_ratings !! user)) else ∅ in
  mret (merge_sort ranks_before (filter (λ p, p.1 ∉ known) scored)).

(** ** Stand-ins for the library random sources, used in worked examples *)

(** A counter in place of the Mersenne Twister state: draw [k] is the
    integer [(state + k) mod 5 - 2] as a float. *)
Definition demo_normal (st : Z) (rows cols : nat) : matrix * Z :=
  ((λ i, (λ j, F64.of_Z ((st + Z.of_nat (i * cols + j)) mod 5 - 2))
           <$> seq 0 cols) <$> seq 0 rows,
   st + Z.of_nat (rows * cols)).

(** A rotation by [seed] places in place of the seeded permutation. *)
Definition demo_sample (frame : list Rating) (seed : Z) : list Rating :=
  rotate (Z.to_nat (seed mod Z.of_nat (length frame))) frame.

Definition demo_ext : Externals := {|
  RandomState := Z;
  np_random_seed := λ s, s;
  np_random_normal := demo_normal;
  df_sample := demo_sample;
  compute_gradients := compute_gradients_spec;
  get_prediction := get_prediction_spec
|}.

(** Small float literals. *)
Definition f0 : float := F64.zero.
Definition f1 : float := Eval vm_compute in F64.of_Z 1.
Definition f2 : float := Eval vm_compute in F64.of_Z 2.
Definition f3 : float := Eval vm_compute in F64.of_Z 3.
Definition f4 : float := Eval vm_compute in F64.of_Z 4.
Definition f5 : float := Eval vm_compute in F64.of_Z 5.
Definition f7 : float := Eval vm_compute in F64.of_Z 7.
(** [2^1023], a finite binary64 number. *)
Definition f_huge : float := S754_finite false 4503599627370496 971.

(** Modelled from the spec: the accumulating update ([scatterAdd] with the
    sign flipped), as the design document's test describes it: each delta
    is applied separately, in sequence, as an in-place update of its own,
    so that the deltas of a repeated id add up on that id's row. *)
Fixpoint scatter_sub_each (A : matrix) (idx : list Z) (B : matrix)
  : res matrix :=
  match idx, B with
  | [], [] => Ok A
  | i :: idx', b :: B' =>
      A' ← Np.isub_rows A [i] [b]; scatter_sub_each A' idx' B'
  | _, _ => Raise ValueError
  end.

(** ** Worked examples: small notebooks *)

Definition demo_globals (U V : matrix) (frame : list Rating)
  : @Globals demo_ext :=
  @Build_Globals demo_ext 0 U V frame 1 [] [].

Definition demo_config (lr : float) (n_epochs bs : Z) : Config :=
  {| d := 1; epochs := n_epochs; batch_size := bs; learning_rate := lr;
     seed := 0 |}.

(** One user whose two ratings fall into the same minibatch. *)
Definition twice_frame : list Rating :=
  [ {| user := 1; item := 1; rating := f3 |};
    {| user := 1; item := 2; rating := f2 |} ].

Definition twice_globals : @Globals demo_ext :=
  demo_globals [[f1]] [[f1]; [f1]] twice_frame.

(** Two users and two items with factors that reproduce every rating
    ([u = [2, 1]], [v = [2, 1]]); the pair (user 1, item 2) is held out. *)
Definition exact_data : Dataset :=
  {| n_users := 2; n_items := 2; users := [1; 2];
     train_ratings :=
       [ {| user := 1; item := 1; rating := f4 |};
         {| user := 2; item := 1; rating := f2 |};
         {| user := 2; item := 2; rating := f1 |} ];
     test_ratings := [ {| user := 1; item := 2; rating := f2 |} ] |}.

Definition exact_globals : @Globals demo_ext :=
  demo_globals [[f2]; [f1]] [[f2]; [f1]] (train_ratings exact_data).

(** Three users and two items; the two data sets have the same training
    ratings and differ in the one held-out rating: of user 1, or of
    user 3. *)
Definition held_out_data (test_user test_item : Z) : Dataset :=
  {| n_users := 3; n_items := 2; users := [1; 2; 3];
     train_ratings := train_ratings exact_data;
     test_ratings :=
       [ {| user := test_user; item := test_item; rating := f2 |} ] |}.

(** One user who has rated item 1 of three. *)
Definition shelf_ratings : UserRatings := {[ 1 := {[ 1 := f5 ]} ]}.

Definition shelf_data : Dataset :=
  {| n_users := 1; n_items := 3; users := [1];
     train_ratings := [ {| user := 1; item := 1; rating := f5 |} ];
     test_ratings := [ {| user := 1; item := 3; rating := f4 |} ] |}.

Definition shelf_globals : @Globals demo_ext :=
  demo_globals [[f1]] [[f1]; [f2]; [f3]] (train_ratings shelf_data).

(** * Properties *)

(** ** Results and array primitives *)

Lemma res_bind_Ok {A B} (m : res A) (f : A → res B) (b : B) :
  m ≫= f = Ok b → ∃ a, m = Ok a ∧ f a = Ok b.
Proof. destruct m as [a|e]; simpl; [eauto | discriminate]. Qed.

Lemma mapM_res_Ok {A B} (f : A → res B) (l : list A) (ks : list B) :
  mapM f l = Ok ks → Forall2 (λ x k, f x = Ok k) l ks.
Proof.
  revert ks. induction l as [|x l IH]; intros ks Hm; simpl in Hm.
  - injection Hm as <-. constructor.
  - apply res_bind_Ok in Hm as (y & Hy & Hm).
    apply res_bind_Ok in Hm as (k & Hk & Hm).
    injection Hm as <-. constructor; auto.
Qed.

Lemma Forall2_mapM_res {A B} (f : A → res B) (l : list A) (ks : list B) :
  Forall2 (λ x k, f x = Ok k) l ks → mapM f l = Ok ks.
Proof.
  induction 1 as [|x k l ks Hx _ IH]; simpl; [done|].
  rewrite Hx. simpl. rewrite IH. done.
Qed.

Lemma py_index_Ok (n : nat) (i : Z) (k : nat) :
  Np.py_index n i = Ok k →
  (k < n)%nat ∧ (Z.of_nat k = i ∨ Z.of_nat k = i + Z.of_nat n).
Proof.
  unfold Np.py_index.
  destruct ((0 <=? i) && (i <? Z.of_nat n)) eqn:H1.
  - intros [= <-]. apply andb_true_iff in H1 as [?%Z.leb_le ?%Z.ltb_lt]. lia.
  - destruct ((- Z.of_nat n <=? i) && (i <? 0)) eqn:H2; [|discriminate].
    intros [= <-]. apply andb_true_iff in H2 as [?%Z.leb_le ?%Z.ltb_lt]. lia.
Qed.

Lemma py_index_in_range (n : nat) (id : Z) :
  1 ≤ id ≤ Z.of_nat n → Np.py_index n (id - 1) = Ok (Z.to_nat (id - 1)).
Proof.
  intros H. unfold Np.py_index.
  replace (0 <=? id - 1) with true by (symmetry; apply Z.leb_le; lia).
  replace (id - 1 <? Z.of_nat n) with true by (symmetry; apply Z.ltb_lt; lia).
  done.
Qed.

Lemma put_rows_length (A : matrix) (ks : list nat) (D : matrix) :
  length (Np.put_rows A ks D) = length A.
Proof.
  revert A D. induction ks as [|k ks IH]; intros A [|r D]; simpl; try done.
  rewrite IH. apply length_insert.
Qed.

Lemma put_rows_lookup_ne (A : matrix) (ks : list nat) (D : matrix) (r : nat) :
  r ∉ ks → Np.put_rows A ks D !! r = A !! r.
Proof.
  revert A D. induction ks as [|k ks IH]; intros A [|row D] Hr; simpl; try done.
  apply not_elem_of_cons in Hr as [Hne Hr].
  rewrite IH by done. by apply list_lookup_insert_ne.
Qed.

Lemma Forall2_elem_of_image {A B} (P : A → B → Prop) (l : list A) (k : list B)
    (y : B) :
  Forall2 P l k → y ∈ k → ∃ x, x ∈ l ∧ P x y.
Proof.
  induction 1 as [|x y' l k Hxy _ IH]; intros Hy.
  - by apply elem_of_nil in Hy.
  - apply elem_of_cons in Hy as [->|Hy].
    + exists x. split; [left|done].
    + destruct (IH Hy) as (x' & ? & ?). exists x'. split; [by right|done].
Qed.

(** [A[idx] -= B] keeps the number of rows and leaves alone every row that
    no index of [idx] selects. *)
Lemma isub_rows_frame (A : matrix) (idx : list Z) (B A' : matrix) :
  Np.isub_rows A idx B = Ok A' →
  length A' = length A ∧
  ∀ r, (∀ i, i ∈ idx → Np.py_index (length A) i ≠ Ok r) → A' !! r = A !! r.
Proof.
  unfold Np.isub_rows. intros H.
  apply res_bind_Ok in H as (ks & Hks & H).
  apply res_bind_Ok in H as (G & HG & H).
  destruct (Np.same_shape G B); [|discriminate]. injection H as <-.
  split; [apply put_rows_length|].
  intros r Hr. apply put_rows_lookup_ne. intros Hin.
  apply mapM_res_Ok in Hks.
  destruct (Forall2_elem_of_image _ _ _ _ Hks Hin) as (i & Hi & Hsel).
  by apply (Hr i).
Qed.

(** ** Running statements *)

Section Running.
Context `{Ext : Externals}.

Lemma M_bind_run {A B} (m : M A) (f : A → M B) (g : Globals) :
  (m ≫= f) g =
  match m g with
  | (Ok a, g') => f a g'
  | (Raise e, g') => (Raise e, g')
  end.
Proof. reflexivity. Qed.

(** A property of the globals that every pass of a loop body keeps is kept
    by the loop, whether it runs to the end or stops at an exception. *)
Lemma for_each_invariant_in {A} (P : Globals → Prop) (body : A → M unit)
    (l : list A) (g : Globals) :
  (∀ x h, x ∈ l → P h → P (body x h).2) → P g → P (for_each body l g).2.
Proof.
  revert g. induction l as [|x l IH]; intros g Hbody Hg; simpl; [done|].
  rewrite M_bind_run.
  assert (Hx : P (body x g).2) by (apply Hbody; [left|done]).
  destruct (body x g) as [[[]|e] g']; simpl in *; [|done].
  apply IH; [|done]. intros y h Hy. apply Hbody. by right.
Qed.

Lemma for_each_invariant {A} (P : Globals → Prop) (body : A → M unit)
    (l : list A) (g : Globals) :
  (∀ x h, P h → P (body x h).2) → P g → P (for_each body l g).2.
Proof. intros Hbody. apply for_each_invariant_in. intros x h _. apply Hbody. Qed.

Lemma selects_in_range (n : nat) (id : Z) (r : nat) :
  1 ≤ id ≤ Z.of_nat n → selects n (id - 1) r ↔ Z.of_nat r = id - 1.
Proof.
  intros H. unfold selects. rewrite py_index_in_range by done.
  split; [intros [= <-]; lia | intros Hr; f_equal; lia].
Qed.

(** The state in which [update_block] ends is the initial one with the
    user rows rewritten by the first in-place update (if it was reached)
    and the item rows by the second (if it was reached). *)
Lemma update_block_state (cfg : Config) (idx : Z) (g : Globals) :
  let mb := minibatch cfg g idx in
  let g1 := (update_block cfg idx g).2 in
  g1 = g ∨
  ∃ ue ie U,
    Np.take_rows (user_factors g) (user_rows mb) = Ok ue ∧
    Np.take_rows (item_factors g) (item_rows mb) = Ok ie ∧
    Np.isub_rows (user_factors g) (user_rows mb)
      (Np.smul (learning_rate cfg)
         (compute_gradients (rating <$> mb) ue ie).1) = Ok U ∧
    (g1 = set_user_factors U g ∨
     ∃ V,
       Np.isub_rows (item_factors g) (item_rows mb)
         (Np.smul (learning_rate cfg)
            (compute_gradients (rating <$> mb) ue ie).2) = Ok V ∧
       g1 = set_item_factors V (set_user_factors U g)).
Proof.
  intros mb g1. subst g1.
  unfold update_block, mbind, M_bind, lift, get, modify, mret, M_ret.
  cbv zeta. fold mb.
  destruct (Np.take_rows (user_factors g) (user_rows mb)) as [ue|] eqn:Hue;
    [|by left].
  destruct (Np.take_rows (item_factors g) (item_rows mb)) as [ie|] eqn:Hie;
    [|by left].
  destruct (Np.isub_rows (user_factors g) (user_rows mb) _) as [U|] eqn:HU;
    [|by left].
  right. exists ue, ie, U. repeat split; try done.
  destruct (Np.isub_rows (item_factors g) (item_rows mb) _) as [V|] eqn:HV;
    [|by left].
  right. exists V. split; [done|]. reflexivity.
Qed.

(** The monitoring block only appends to the two traces. *)
Lemma monitor_block_factors (data : Dataset) (idx : Z)
    (batch : list Rating * matrix * matrix) (g : Globals) :
  let g1 := (monitor_block data idx batch g).2 in
  user_factors g1 = user_factors g ∧ item_factors g1 = item_factors g ∧
  ratings g1 = ratings g ∧ num_batches g1 = num_batches g ∧ rng g1 = rng g.
Proof.
  destruct batch as [[mb ue] ie].
  unfold monitor_block, mbind, M_bind, lift, get, modify, mret, M_ret.
  destruct (idx mod 300 =? 0); [|done].
  destruct (get_rmse (rating <$> mb) ue ie); [|done].
  destruct (Np.take_rows (user_factors g) _); [|done].
  destruct (Np.take_rows (item_factors g) _); [|done].
  destruct (get_rmse _ _ _); done.
Qed.

(** On a tick that completes, the value appended to the test trace is the
    RMSE of the held-out ratings against the user rows and the item rows
    that the ratings' user ids select. *)
Lemma monitor_block_test_rmse (data : Dataset) (idx : Z)
    (batch : list Rating * matrix * matrix) (g : Globals) :
  idx mod 300 = 0 →
  (monitor_block data idx batch g).1 = Ok tt →
  ∃ tu ti r,
    Np.take_rows (user_factors g) (user_rows (test_ratings data)) = Ok tu ∧
    Np.take_rows (item_factors g) (user_rows (test_ratings data)) = Ok ti ∧
    get_rmse (rating <$> test_ratings data) tu ti = Ok r ∧
    rmse_test_trace (monitor_block data idx batch g).2
      = rmse_test_trace g ++ [r].
Proof.
  intros Htick. destruct batch as [[mb ue] ie].
  unfold monitor_block, mbind, M_bind, lift, get, modify, mret, M_ret.
  rewrite Htick. simpl.
  destruct (get_rmse (rating <$> mb) ue ie); [|discriminate].
  destruct (Np.take_rows (user_factors g) _) as [tu|]; [|discriminate].
  destruct (Np.take_rows (item_factors g) _) as [ti|]; [|discriminate].
  destruct (get_rmse _ tu ti) as [r|] eqn:Hr; [|discriminate].
  intros _. by exists tu, ti, r.
Qed.

(** ** Which rows a training step writes *)

(** C10. One pass of the inner loop writes, in the user factors, only rows
    selected by [user id - 1] for a user id of the minibatch and, in the
    item factors, only rows selected by [item id - 1] for an item id of the
    minibatch: every other row of both arrays, and the number of rows, is
    as before, whether the pass completes or stops at an exception.  The
    monitoring block changes no factor row at all. *)
Theorem train_batch_frame (data : Dataset) (cfg : Config) (idx : Z)
    (g : Globals) :
  let mb := minibatch cfg g idx in
  let g1 := (update_block cfg idx g).2 in
  (length (user_factors g1) = length (user_factors g) ∧
   length (item_factors g1) = length (item_factors g)) ∧
  (∀ r : nat,
     (∀ x, x ∈ mb → ¬ selects (length (user_factors g)) (user x - 1) r) →
     user_factors g1 !! r = user_factors g !! r) ∧
  (∀ r : nat,
     (∀ x, x ∈ mb → ¬ selects (length (item_factors g)) (item x - 1) r) →
     item_factors g1 !! r = item_factors g !! r) ∧
  (∀ batch h,
     let h1 := (monitor_block data idx batch h).2 in
     user_factors h1 = user_factors h ∧ item_factors h1 = item_factors h).
Proof.
  intros mb g1.
  assert (Hsel : ∀ (f : Rating → Z) n r,
            (∀ x, x ∈ mb → ¬ selects n (f x - 1) r) →
            ∀ i, i ∈ (λ x, f x - 1) <$> mb → Np.py_index n i ≠ Ok r).
  { intros f n r H i Hi. apply list_elem_of_fmap in Hi as (x & -> & Hx).
    by apply H. }
  assert (Hmon : ∀ batch h,
            let h1 := (monitor_block data idx batch h).2 in
            user_factors h1 = user_factors h ∧ item_factors h1 = item_factors h).
  { intros batch h.
    destruct (monitor_block_factors data idx batch h) as (HU & HV & _).
    by split. }
  destruct (update_block_state cfg idx g) as [Hg|(ue & ie & U & _ & _ & HU & Hg)];
    fold mb g1 in Hg |- *.
  { rewrite Hg. split_and!; done. }
  apply isub_rows_frame in HU as [HUlen HUrows].
  destruct Hg as [Hg|(V & HV & Hg)].
  - rewrite Hg. simpl. split_and!; try done.
    intros r Hr. apply HUrows, (Hsel user), Hr.
  - apply isub_rows_frame in HV as [HVlen HVrows].
    rewrite Hg. simpl. split_and!; try done.
    + intros r Hr. apply HUrows, (Hsel user), Hr.
    + intros r Hr. apply HVrows, (Hsel item), Hr.
Qed.

End Running.

(** In the exact two-by-two example with batches of one rating, the first
    step works on user 1 and item 1: the second row of both arrays is as
    before. *)
Lemma train_batch_frame_witness :
  let cfg := demo_config f1 1 1 in
  user_factors (update_block cfg 0 exact_globals).2 !! 1%nat
    = user_factors exact_globals !! 1%nat ∧
  item_factors (update_block cfg 0 exact_globals).2 !! 1%nat
    = item_factors exact_globals !! 1%nat.
Proof.
  intros cfg.
  destruct (train_batch_frame (Ext := demo_ext) exact_data cfg 0 exact_globals)
    as (_ & HU & HV & _).
  split; [apply HU|apply HV]; intros x Hx;
    apply list_elem_of_singleton in Hx; subst x; vm_compute; discriminate.
Defined.

Lemma Forall_exists_Forall2 {A B} (P : A → B → Prop) (l : list A) :
  Forall (λ x, ∃ y, P x y) l → ∃ k, Forall2 P l k.
Proof.
  induction 1 as [|x l [y Hy] _ [k Hk]].
  - exists []. constructor.
  - exists (y :: k). by constructor.
Qed.

Lemma row_lookup (A : matrix) (k : nat) :
  (k < length A)%nat → ∃ r, A !! k = Some r ∧ Np.row A k = Ok r.
Proof.
  intros Hk. unfold Np.row. destruct (A !! k) as [r|] eqn:Hr.
  - by exists r.
  - apply lookup_ge_None in Hr. lia.
Qed.

(** ** Repeated ids in one minibatch *)

(** When an index occurs twice, [A[idx] -= B] leaves on that row the old
    row minus the second operand only: both temporaries are computed from
    the old row and the second assignment overwrites the first. *)
Lemma isub_rows_twice (A : matrix) (i : Z) (k : nat) (x b1 b2 : vector) :
  Np.py_index (length A) i = Ok k → A !! k = Some x →
  length b1 = length x → length b2 = length x →
  Np.isub_rows A [i; i] [b1; b2] = Ok (<[k := Np.vsub x b2]> A).
Proof.
  intros Hi Hk H1 H2. unfold Np.isub_rows. simpl. rewrite Hi. simpl.
  unfold Np.row. rewrite Hk. simpl.
  unfold Np.same_shape. simpl. rewrite H1, H2, Nat.eqb_refl. simpl.
  f_equal. apply list_insert_insert_eq.
Qed.

Lemma mapM_row_Ok (A : matrix) (ks : list nat) :
  Forall (λ k, (k < length A)%nat) ks → ∃ G, mapM (Np.row A) ks = Ok G.
Proof.
  induction 1 as [|k ks Hk _ [G HG]]; simpl.
  - by exists [].
  - destruct (row_lookup A k Hk) as (x & _ & ->). simpl. rewrite HG. simpl.
    by eexists.
Qed.

Lemma mapM_res_ext {A B} (f h : A → res B) (l : list A) :
  (∀ x, x ∈ l → f x = h x) → mapM f l = mapM h l.
Proof.
  induction l as [|x l IH]; intros Hfh; simpl; [done|].
  rewrite (Hfh x) by left. rewrite IH; [done|].
  intros y Hy. apply Hfh. by right.
Qed.

Lemma mapM_row_insert (A : matrix) (k : nat) (y : vector) (ks : list nat) :
  k ∉ ks → mapM (Np.row (<[k := y]> A)) ks = mapM (Np.row A) ks.
Proof.
  intros Hk. apply mapM_res_ext. intros k' Hk'. unfold Np.row.
  rewrite list_lookup_insert_ne; [done|]. by intros ->.
Qed.

(** When the indices select pairwise distinct rows, the in-place update of
    the training loop and the application of the deltas one by one agree:
    they differ on repeated ids only. *)
Lemma isub_rows_distinct (A : matrix) (idx : list Z) (B : matrix)
    (ks : list nat) :
  mapM (Np.py_index (length A)) idx = Ok ks → NoDup ks →
  scatter_sub_each A idx B = Np.isub_rows A idx B.
Proof.
  intros Hks Hnd. revert A idx B Hks.
  induction Hnd as [|k ks Hk Hnd IH]; intros A idx B Hks.
  - apply mapM_res_Ok in Hks. apply Forall2_nil_inv_r in Hks. subst idx.
    unfold Np.isub_rows. simpl. by destruct B.
  - pose proof (mapM_res_Ok _ _ _ Hks) as Hall.
    apply Forall2_cons_inv_r in Hall as (i & idx' & Hi & Hidx' & ->).
    apply Forall2_mapM_res in Hidx'.
    assert (Hlt : Forall (λ k', (k' < length A)%nat) (k :: ks)).
    { apply Forall_forall. intros k' Hk'.
      destruct (Forall2_elem_of_image _ _ _ _ (mapM_res_Ok _ _ _ Hks) Hk')
        as (i' & _ & Hi'). by apply py_index_Ok in Hi' as [? _]. }
    apply Forall_cons in Hlt as [Hklt Hlt].
    destruct (row_lookup A k Hklt) as (x & Hx & Hrow).
    destruct (mapM_row_Ok A ks Hlt) as (G & HG).
    unfold Np.isub_rows. rewrite Hks. simpl. rewrite Hrow, HG. simpl.
    destruct B as [|b B]; simpl.
    { unfold Np.same_shape. by simpl. }
    unfold Np.isub_rows at 1. simpl. rewrite Hi. simpl. rewrite Hrow. simpl.
    unfold Np.same_shape at 1 2. simpl.
    destruct (Nat.eqb (length x) (length b)) eqn:Hwidth; simpl.
    + rewrite (IH (<[k := Np.vsub x b]> A) idx' B)
        by (by rewrite length_insert).
      unfold Np.isub_rows. rewrite length_insert, Hidx'. simpl.
      rewrite mapM_row_insert, HG by done. simpl. done.
    + by rewrite ?andb_false_r.
Qed.

(** C1. A minibatch holding user 1 twice (items 1 and 2, ratings 3 and 2,
    all factors 1, learning rate 1): the two per-instance deltas of the
    user row are -4 and -2.  The in-place update of the training loop
    leaves 1 - (-2) = 3 on the row, the last delta only; applying the two
    deltas one after the other gives 1 + 4 + 2 = 7. *)
Theorem update_block_last_write_wins :
  let cfg := demo_config f1 1 2 in
  let mb := minibatch cfg twice_globals 0 in
  let ue := [[f1]; [f1]] in
  let grads := compute_gradients_spec (rating <$> mb) ue [[f1]; [f1]] in
  Np.take_rows (user_factors twice_globals) (user_rows mb) = Ok ue ∧
  user_factors (update_block cfg 0 twice_globals).2 = [[f3]] ∧
  scatter_sub_each (user_factors twice_globals) (user_rows mb)
    (Np.smul (learning_rate cfg) grads.1) = Ok [[f7]].
Proof. vm_compute. done. Qed.

(** ** The held-out RMSE of the monitoring block *)

(** C2. With factors that reproduce every rating exactly and the held-out
    rating (user 1, item 2, value 2), the monitoring block records a test
    RMSE of 2: it reads item row 0, the row of the rating's user id, and
    predicts 2 * 2.  Reading the item factors through the item ids gives
    the RMSE 0. *)
Theorem monitor_block_reads_items_by_user_id :
  let test := test_ratings exact_data in
  let g := exact_globals in
  let batch := ([ {| user := 1; item := 1; rating := f4 |} ], [[f2]], [[f2]]) in
  (monitor_block exact_data 0 batch g).1 = Ok tt ∧
  rmse_test_trace (monitor_block exact_data 0 batch g).2 = [f2] ∧
  (tu ← Np.take_rows (user_factors g) (user_rows test);
   ti ← Np.take_rows (item_factors g) (item_rows test);
   get_rmse (rating <$> test) tu ti) = Ok f0.
Proof. vm_compute. done. Qed.

(** ** The length of a recommendation list *)

Lemma collect_until_take {A} (N : Z) (acc rest : list A) :
  Z.of_nat (length acc) < N →
  collect_until N acc rest = acc ++ take (Z.to_nat N - length acc) rest.
Proof.
  revert acc. induction rest as [|x rest IH]; intros acc Hacc; simpl.
  - by rewrite take_nil, app_nil_r.
  - rewrite length_app. simpl.
    destruct (Z.eqb_spec (Z.of_nat (length acc + 1)) N) as [HN|HN].
    + replace (Z.to_nat N - length acc)%nat with 1%nat by lia.
      simpl. by rewrite take_0.
    + rewrite IH by (rewrite length_app; simpl; lia).
      rewrite length_app. simpl.
      replace (Z.to_nat N - length acc)%nat
        with (S (Z.to_nat N - (length acc + 1)))%nat by lia.
      simpl. by rewrite <- app_assoc.
Qed.

(** For [N] of at least 1 the loop returns the first [N] predictions, all
    of them when there are fewer. *)
Lemma collect_until_pos {A} (N : Z) (l : list A) :
  0 < N → collect_until N [] l = take (Z.to_nat N) l.
Proof.
  intros HN. rewrite collect_until_take by (simpl; lia).
  simpl. by rewrite Nat.sub_0_r.
Qed.

(** For [N] of at most 0 the test [len(recommendations) == N] never holds
    after an append, and the loop returns every prediction. *)
Lemma collect_until_nonpos {A} (N : Z) (acc l : list A) :
  N ≤ 0 → collect_until N acc l = acc ++ l.
Proof.
  intros HN. revert acc. induction l as [|x l IH]; intros acc; simpl.
  - by rewrite app_nil_r.
  - rewrite length_app. simpl.
    destruct (Z.eqb_spec (Z.of_nat (length acc + 1)) N) as [HN'|_]; [lia|].
    by rewrite IH, <- app_assoc.
Qed.

Section RecommendationLength.
Context `{Ext : Externals}.

(** For [N] of at least 1, [get_recommendations] returns the first [N]
    predictions in their order, and all of them when there are fewer. *)
Lemma get_recommendations_pos (user_ratings : UserRatings) (data : Dataset)
    (g : Globals) (user N : Z) (remove_known_pos : bool)
    (predictions : Predictions) :
  0 < N →
  get_prediction user user_ratings None data (user_factors g)
    (item_factors g) remove_known_pos = Ok predictions →
  get_recommendations user_ratings data g user N remove_known_pos
  = Ok (take (Z.to_nat N) predictions).
Proof.
  intros HN Hp. unfold get_recommendations. rewrite Hp. simpl.
  by rewrite collect_until_pos.
Qed.

End RecommendationLength.

(** With [remove_known_pos] set, no prediction of the modelled
    [get_prediction] is for an item the user has rated. *)
Lemma get_prediction_spec_excludes (user : Z) (user_ratings : UserRatings)
    (items : option (list Z)) (data : Dataset) (U V : matrix)
    (predictions : Predictions) (known : gmap Z float) :
  user_ratings !! user = Some known →
  get_prediction_spec user user_ratings items data U V true = Ok predictions →
  ∀ p, p ∈ predictions → known !! p.1 = None.
Proof.
  intros Hknown. unfold get_prediction_spec. intros H.
  apply res_bind_Ok in H as (u & _ & H).
  apply res_bind_Ok in H as (scored & _ & H). injection H as <-.
  intros p Hp. rewrite merge_sort_Permutation in Hp.
  apply list_elem_of_filter in Hp as [Hp _].
  rewrite Hknown in Hp. simpl in Hp. by apply not_elem_of_dom in Hp.
Qed.

Lemma row_of_id_Ok (A : matrix) (id : Z) :
  1 ≤ id ≤ Z.of_nat (length A) → ∃ r, row_of_id A id = Ok r.
Proof.
  intros Hid. unfold row_of_id.
  replace ((1 <=? id) && (id <=? Z.of_nat (length A))) with true
    by (symmetry; apply andb_true_iff; split; apply Z.leb_le; lia).
  unfold Np.row.
  destruct (lookup_lt_is_Some_2 A (Z.to_nat (id - 1)) ltac:(lia)) as [r ->].
  by exists r.
Qed.

Lemma remove_dups_NoDup {A} `{EqDecision A} (l : list A) :
  NoDup l → remove_dups l = l.
Proof.
  induction 1 as [|x l Hx _ IH]; simpl; [done|].
  destruct (decide_rel elem_of x l); [done|]. by rewrite IH.
Qed.

(** Scoring completes on ids that have a row, and keeps the ids and their
    order. *)
Lemma mapM_scores (u : vector) (V : matrix) (ids : list Z) :
  Forall (λ i, 1 ≤ i ≤ Z.of_nat (length V)) ids →
  ∃ scored : Predictions,
    mapM (λ i, v ← row_of_id V i; mret (i, Np.sum (Np.vmul u v))) ids
      = Ok scored ∧
    scored.*1 = ids.
Proof.
  induction 1 as [|i ids Hi _ (scored & Hs & Hfst)]; simpl.
  - by exists [].
  - destruct (row_of_id_Ok V i Hi) as [v ->]. simpl. rewrite Hs. simpl.
    exists ((i, Np.sum (Np.vmul u v)) :: scored). split; [done|].
    rewrite fmap_cons. by rewrite Hfst.
Qed.

(** The modelled [get_prediction] completes for a user who has a row, and
    its predictions are for the item ids that are not known, each once. *)
Lemma get_prediction_spec_Ok (user : Z) (user_ratings : UserRatings)
    (data : Dataset) (U V : matrix) (remove_known_pos : bool) :
  1 ≤ user ≤ Z.of_nat (length U) →
  ∃ predictions,
    get_prediction_spec user user_ratings None data U V remove_known_pos
      = Ok predictions ∧
    predictions.*1 ≡ₚ
      filter (λ i, i ∉ (if remove_known_pos
                        then dom (default ∅ (user_ratings !! user))
                        else (∅ : gset Z)))
        (seqZ 1 (Z.of_nat (length V))).
Proof.
  intros Hu. unfold get_prediction_spec.
  destruct (row_of_id_Ok U user Hu) as [u ->]. simpl.
  rewrite remove_dups_NoDup by apply NoDup_seqZ.
  destruct (mapM_scores u V (seqZ 1 (Z.of_nat (length V))))
    as (scored & -> & Hfst).
  { apply Forall_forall. intros i Hi%elem_of_seqZ. lia. }
  simpl. eexists. split; [done|].
  rewrite merge_sort_Permutation, <- Hfst.
  clear. induction scored as [|p scored IH]; [done|].
  rewrite fmap_cons, !filter_cons. simpl.
  destruct (decide _); simpl; by rewrite IH.
Qed.

Section Exclusion.
Context `{Ext : Externals}.

(** C6.  Let [get_prediction] behave as modelled from the spec.  For every
    state of the factor arrays, every user who has a row in them and every
    [N] of at least 1, [get_recommendations] with [remove_known_pos] set
    completes; the list it returns holds no id the user has rated, its
    length is the smaller of [N] and the number of items the user has not
    rated (so fewer than [N] entries when fewer candidates remain), and
    its ids are distinct unrated items: nothing is padded. *)
Theorem get_recommendations_excludes_known (user_ratings : UserRatings)
    (data : Dataset) (g : Globals) (user N : Z) :
  (∀ u ur items dt U V r,
     get_prediction u ur items dt U V r
     = get_prediction_spec u ur items dt U V r) →
  0 < N →
  1 ≤ user ≤ Z.of_nat (length (user_factors g)) →
  let known : gset Z := dom (default ∅ (user_ratings !! user)) in
  let eligible :=
    filter (λ i, i ∉ known) (seqZ 1 (Z.of_nat (length (item_factors g)))) in
  ∃ recommendations,
    get_recommendations user_ratings data g user N true = Ok recommendations ∧
    (∀ p, p ∈ recommendations → p.1 ∉ known) ∧
    Z.of_nat (length recommendations) = Z.min N (Z.of_nat (length eligible)) ∧
    NoDup recommendations.*1 ∧
    recommendations.*1 ⊆ eligible.
Proof.
  intros Hpred HN Hu known eligible.
  destruct (get_prediction_spec_Ok user user_ratings data (user_factors g)
              (item_factors g) true Hu) as (predictions & Hp & Hperm).
  fold known in Hperm. fold eligible in Hperm.
  exists (take (Z.to_nat N) predictions).
  assert (Hin : ∀ p, p ∈ take (Z.to_nat N) predictions → p.1 ∈ eligible).
  { intros p Hp'. rewrite <- Hperm. apply list_elem_of_fmap. exists p.
    split; [done|]. eapply elem_of_sublist; [done|apply sublist_take]. }
  split_and!.
  - unfold get_recommendations. rewrite Hpred, Hp. simpl.
    by rewrite collect_until_pos.
  - intros p Hp'. apply Hin in Hp'. unfold eligible in Hp'.
    by apply list_elem_of_filter in Hp' as [? _].
  - rewrite length_take, <- (Permutation_length Hperm), length_fmap. lia.
  - rewrite fmap_take. apply (sublist_NoDup _ predictions.*1).
    + rewrite Hperm. apply NoDup_filter, NoDup_seqZ.
    + apply sublist_take.
  - intros i (p & -> & Hp')%list_elem_of_fmap. by apply Hin.
Qed.

End Exclusion.

(** One user who has rated item 1 of three, asked for five
    recommendations: the two unrated items come back. *)
Lemma get_recommendations_excludes_known_witness :
  let known : gset Z := dom (default ∅ (shelf_ratings !! 1)) in
  let eligible :=
    filter (λ i, i ∉ known)
      (seqZ 1 (Z.of_nat (length (item_factors shelf_globals)))) in
  ∃ recommendations,
    get_recommendations shelf_ratings shelf_data shelf_globals 1 5 true
      = Ok recommendations ∧
    (∀ p, p ∈ recommendations → p.1 ∉ known) ∧
    Z.of_nat (length recommendations) = Z.min 5 (Z.of_nat (length eligible)) ∧
    NoDup recommendations.*1 ∧
    recommendations.*1 ⊆ eligible.
Proof.
  apply (get_recommendations_excludes_known (Ext := demo_ext) shelf_ratings
           shelf_data shelf_globals 1 5).
  - reflexivity.
  - lia.
  - simpl. lia.
Defined.

(** Outside the range of the theorem: the user has rated item 1 of three;
    asked for [N = 0] recommendations without known positives, the loop's
    test never holds and [get_recommendations] returns both remaining
    items. *)
Lemma get_recommendations_zero_returns_all :
  get_recommendations shelf_ratings shelf_data shelf_globals 1 0 true
  = Ok [(3, f3); (2, f2)].
Proof. vm_compute. done. Qed.

(** ** Ids outside the arrays *)

Lemma mapM_res_Raise_intro {A B} (f : A → res B) (l : list A) (e : exn) :
  (∀ x e', f x = Raise e' → e' = e) →
  Exists (λ x, f x = Raise e) l → mapM f l = Raise e.
Proof.
  intros Honly. induction 1 as [x l Hx|x l _ IH]; simpl.
  - by rewrite Hx.
  - destruct (f x) as [y|e'] eqn:Hx; simpl.
    + by rewrite IH.
    + by rewrite (Honly _ _ Hx).
Qed.

Lemma py_index_Raise (n : nat) (i : Z) (e : exn) :
  Np.py_index n i = Raise e → e = IndexError.
Proof.
  unfold Np.py_index. repeat case_match; try discriminate. by intros [= <-].
Qed.

Lemma py_index_outside (n : nat) (i : Z) :
  i < - Z.of_nat n ∨ Z.of_nat n ≤ i → Np.py_index n i = Raise IndexError.
Proof.
  intros H. unfold Np.py_index.
  destruct ((0 <=? i) && (i <? Z.of_nat n)) eqn:H1.
  { apply andb_true_iff in H1 as [?%Z.leb_le ?%Z.ltb_lt]. lia. }
  destruct ((- Z.of_nat n <=? i) && (i <? 0)) eqn:H2; [|done].
  apply andb_true_iff in H2 as [?%Z.leb_le ?%Z.ltb_lt]. lia.
Qed.

Lemma py_index_negative (n : nat) (i : Z) :
  - Z.of_nat n ≤ i < 0 → Np.py_index n i = Ok (Z.to_nat (i + Z.of_nat n)).
Proof.
  intros H. unfold Np.py_index.
  replace (0 <=? i) with false by (symmetry; apply Z.leb_gt; lia).
  replace (- Z.of_nat n <=? i) with true by (symmetry; apply Z.leb_le; lia).
  replace (i <? 0) with true by (symmetry; apply Z.ltb_lt; lia).
  done.
Qed.

(** C4, as the code has it.  On an array of [m] rows, gathering or updating
    through [ids - 1] raises [IndexError] as soon as one id is greater than
    [m] or smaller than [1 - m].  Ids in [1 - m, 0] are not refused: the
    index [id - 1] is negative and counts from the end, so id 0 stands for
    the last row. *)
Theorem take_rows_id_range (A : matrix) (ids : list Z) :
  let m := Z.of_nat (length A) in
  let idx := (λ id, id - 1) <$> ids in
  (Exists (λ id, id < 1 - m ∨ m < id) ids →
     Np.take_rows A idx = Raise IndexError ∧
     ∀ B, Np.isub_rows A idx B = Raise IndexError) ∧
  (Forall (λ id, 1 - m ≤ id ≤ m) ids →
     ∃ rows, Np.take_rows A idx = Ok rows ∧
             Forall2 (λ id r, A !! resolved_row m id = Some r) ids rows).
Proof.
  intros m idx. split.
  - intros Hex.
    assert (Hidx : Exists (λ i, Np.py_index (length A) i = Raise IndexError) idx).
    { subst idx. apply Exists_fmap. eapply Exists_impl; [exact Hex|].
      intros id Hid. simpl in Hid |- *. unfold m in Hid.
      apply py_index_outside. lia. }
    split.
    + apply mapM_res_Raise_intro.
      * intros i e. destruct (Np.py_index (length A) i) as [k|e0] eqn:Hi.
        -- apply py_index_Ok in Hi as [Hk _].
           destruct (row_lookup A k Hk) as (r & _ & Hr).
           change (Np.row A k = Raise e → e = IndexError).
           rewrite Hr. discriminate.
        -- intros [= <-]. by apply py_index_Raise in Hi.
      * eapply Exists_impl; [exact Hidx|]. intros i Hi. simpl. by rewrite Hi.
    + intros B. unfold Np.isub_rows.
      rewrite (mapM_res_Raise_intro _ _ IndexError); [done| |done].
      intros i e. apply py_index_Raise.
  - intros Hall.
    assert (Hrow : ∀ id, 1 - m ≤ id ≤ m →
              ∃ r, A !! resolved_row m id = Some r ∧
                   (k ← Np.py_index (length A) (id - 1); Np.row A k) = Ok r).
    { intros id Hid. unfold resolved_row. unfold m in Hid |- *.
      destruct (Z.leb_spec id 0).
      - rewrite py_index_negative by lia. simpl.
        destruct (row_lookup A (Z.to_nat (id - 1 + Z.of_nat (length A))))
          as (r & Hr & Hr'); [lia|]. exists r. by split.
      - rewrite py_index_in_range by lia. simpl.
        destruct (row_lookup A (Z.to_nat (id - 1))) as (r & Hr & Hr'); [lia|].
        exists r. by split. }
    destruct (Forall_exists_Forall2 _ ids
                (Forall_impl _ _ _ Hall Hrow)) as (rows & Hrows).
    exists rows. split.
    + apply Forall2_mapM_res. subst idx. apply Forall2_fmap_l.
      eapply Forall2_impl; [exact Hrows|]. by intros id r [_ ?].
    + eapply Forall2_impl; [exact Hrows|]. by intros id r [? _].
Qed.

(** Two rows: the ids 1 and 3 are refused because of 3, the ids 2 and 0
    are served from rows 1 and 1. *)
Lemma take_rows_id_range_witness :
  Np.take_rows [[f1]; [f2]] ((λ id, id - 1) <$> [1; 3]) = Raise IndexError ∧
  ∃ rows, Np.take_rows [[f1]; [f2]] ((λ id, id - 1) <$> [2; 0]) = Ok rows ∧
          Forall2 (λ id r, [[f1]; [f2]] !! resolved_row 2 id = Some r)
            [2; 0] rows.
Proof.
  split.
  - apply (take_rows_id_range [[f1]; [f2]] [1; 3]). right. left. simpl. lia.
  - apply (take_rows_id_range [[f1]; [f2]] [2; 0]).
    repeat constructor; simpl; lia.
Defined.

(** C4, as the claim has it, fails at id 0: on two rows the gather for user
    id 0 returns the last row, and the update step of a minibatch holding
    that id completes and writes the last row. *)
Lemma user_id_zero_reads_last_row :
  let frame := [ {| user := 0; item := 1; rating := f3 |} ] in
  let g := demo_globals [[f1]; [f2]] [[f1]] frame in
  Np.take_rows (user_factors g) (user_rows frame) = Ok [[f2]] ∧
  (update_block (demo_config f1 1 1) 0 g).1 = Ok (frame, [[f2]], [[f1]]) ∧
  user_factors (update_block (demo_config f1 1 1) 0 g).2 = [[f1]; [f4]].
Proof. vm_compute. done. Qed.

(** ** A learning rate of zero *)

(** Zero times a finite number is a zero, of either sign. *)
Lemma mul_zero_finite (c x : float) :
  F64.is_zero c = true → F64.is_finite x = true →
  F64.is_zero (F64.mul c x) = true.
Proof. destruct c, x; simpl; intros; done. Qed.

(** Subtracting a zero of either sign gives back the same float, except
    that [-0.0 - (-0.0)] is [+0.0]. *)
Lemma sub_zero (x z : float) :
  F64.is_zero z = true → F64.is_neg_zero x = false → F64.sub x z = x.
Proof. destruct z as [[]| | |], x as [[]| | |]; simpl; intros; done. Qed.

Lemma vsub_zero_scaled (c : float) (x b : vector) :
  F64.is_zero c = true →
  forallb F64.is_finite b = true →
  forallb (λ y, negb (F64.is_neg_zero y)) x = true →
  length x = length b →
  Np.vsub x (map (F64.mul c) b) = x.
Proof.
  intros Hc. revert b. induction x as [|y x IH]; intros [|gy b]; simpl;
    try done.
  intros [Hgy Hb]%andb_true_iff [Hy Hx]%andb_true_iff [= Hlen].
  unfold Np.vsub in *. simpl. f_equal.
  - apply sub_zero; [by apply mul_zero_finite|by apply negb_true_iff].
  - by apply IH.
Qed.

Lemma msub_zero_scaled (c : float) (G B : matrix) :
  F64.is_zero c = true → all_finite B = true → no_neg_zero G = true →
  Np.same_shape G (Np.smul c B) = true →
  Np.msub G (Np.smul c B) = G.
Proof.
  intros Hc. unfold Np.same_shape, Np.smul. rewrite length_map.
  revert B. induction G as [|x G IH]; intros [|b B]; simpl; try done.
  intros [Hb HB]%andb_true_iff [Hx HG]%andb_true_iff.
  intros [[=Hlen]%Nat.eqb_eq [Hxb Hall]%andb_true_iff]%andb_true_iff.
  rewrite length_map in Hxb. apply Nat.eqb_eq in Hxb.
  unfold Np.msub. simpl. f_equal.
  - by apply vsub_zero_scaled.
  - apply IH; try done. rewrite Hlen, Nat.eqb_refl. done.
Qed.

(** Assigning back the rows that were read changes nothing. *)
Lemma put_rows_same (A : matrix) (ks : list nat) (G : matrix) :
  Forall2 (λ k r, A !! k = Some r) ks G → Np.put_rows A ks G = A.
Proof.
  induction 1 as [|k r ks G Hk _ IH]; simpl; [done|].
  by rewrite list_insert_id.
Qed.

Lemma rows_no_neg_zero (A : matrix) (ks : list nat) (G : matrix) :
  no_neg_zero A = true → Forall2 (λ k r, A !! k = Some r) ks G →
  no_neg_zero G = true.
Proof.
  intros HA. induction 1 as [|k r ks G Hk _ IH]; simpl; [done|].
  apply andb_true_iff. split; [|done].
  unfold no_neg_zero in HA. rewrite forallb_forall in HA.
  apply HA. apply list_elem_of_In. by eapply list_elem_of_lookup_2.
Qed.

(** With a zero factor in front of finite gradients, [A[idx] -= c * B]
    returns [A], provided no entry of [A] is the negative zero. *)
Lemma isub_rows_zero_scaled (c : float) (A : matrix) (idx : list Z)
    (B A' : matrix) :
  F64.is_zero c = true → all_finite B = true → no_neg_zero A = true →
  Np.isub_rows A idx (Np.smul c B) = Ok A' → A' = A.
Proof.
  intros Hc HB HA. unfold Np.isub_rows. intros H.
  apply res_bind_Ok in H as (ks & _ & H).
  apply res_bind_Ok in H as (G & HG & H).
  destruct (Np.same_shape G (Np.smul c B)) eqn:Hshape; [|discriminate].
  injection H as <-.
  apply mapM_res_Ok in HG.
  assert (HG' : Forall2 (λ k r, A !! k = Some r) ks G).
  { eapply Forall2_impl; [exact HG|]. intros k r. unfold Np.row.
    destruct (A !! k); [by intros [= ->]|discriminate]. }
  rewrite msub_zero_scaled; try done.
  - by apply put_rows_same.
  - by eapply rows_no_neg_zero.
Qed.

Section ZeroLearningRate.
Context `{Ext : Externals}.

Lemma set_factors_same (g : Globals) :
  set_user_factors (user_factors g) g = g ∧
  set_item_factors (item_factors g) g = g.
Proof. by destruct g. Qed.

Lemma update_block_zero_rate (cfg : Config) (idx : Z) (g : Globals) :
  F64.is_zero (learning_rate cfg) = true →
  no_neg_zero (user_factors g) = true →
  no_neg_zero (item_factors g) = true →
  (∀ ue ie,
     Np.take_rows (user_factors g) (user_rows (minibatch cfg g idx)) = Ok ue →
     Np.take_rows (item_factors g) (item_rows (minibatch cfg g idx)) = Ok ie →
     let grads := compute_gradients (rating <$> minibatch cfg g idx) ue ie in
     all_finite grads.1 = true ∧ all_finite grads.2 = true) →
  (update_block cfg idx g).2 = g.
Proof.
  intros Hc HU HV Hfin.
  destruct (set_factors_same g) as [HsetU HsetV].
  destruct (update_block_state cfg idx g)
    as [Hg|(ue & ie & U & Hue & Hie & HU' & Hg)]; [done|].
  destruct (Hfin ue ie Hue Hie) as [Hfu Hfi].
  apply isub_rows_zero_scaled in HU'; try done. subst U.
  rewrite HsetU in Hg.
  destruct Hg as [Hg|(V & HV' & Hg)]; [done|].
  apply isub_rows_zero_scaled in HV'; try done. subst V.
  by rewrite HsetV in Hg.
Qed.

Lemma train_batch_zero_rate (data : Dataset) (cfg : Config) (g h : Globals)
    (idx : Z) :
  F64.is_zero (learning_rate cfg) = true →
  no_neg_zero (user_factors g) = true →
  no_neg_zero (item_factors g) = true →
  gradients_finite cfg g = true →
  idx ∈ range (num_batches g) →
  same_model g h → same_model g (train_batch data cfg idx h).2.
Proof.
  intros Hc HU HV Hfin Hidx (HhU & HhV & Hhr & Hhn).
  assert (Hmb : minibatch cfg h idx = minibatch cfg g idx).
  { unfold minibatch. by rewrite Hhr. }
  assert (Hupd : (update_block cfg idx h).2 = h).
  { apply update_block_zero_rate; rewrite ?HhU, ?HhV, ?Hmb; try done.
    intros ue ie Hue Hie.
    unfold gradients_finite in Hfin. rewrite forallb_forall in Hfin.
    specialize (Hfin idx (proj1 (list_elem_of_In _ _) Hidx)).
    simpl in Hfin. rewrite Hue, Hie in Hfin.
    by apply andb_true_iff in Hfin. }
  unfold train_batch. rewrite M_bind_run.
  destruct (update_block cfg idx h) as [[batch|e] h'] eqn:Hrun;
    simpl in Hupd; subst h'.
  - destruct (monitor_block_factors data idx batch h) as (E1 & E2 & E3 & E4 & _).
    unfold same_model. by rewrite E1, E2, E3, E4.
  - by repeat split.
Qed.

Lemma train_epoch_zero_rate (data : Dataset) (cfg : Config) (g h : Globals)
    (epoch : Z) :
  F64.is_zero (learning_rate cfg) = true →
  no_neg_zero (user_factors g) = true →
  no_neg_zero (item_factors g) = true →
  gradients_finite cfg g = true →
  same_model g h → same_model g (train_epoch data cfg epoch h).2.
Proof.
  intros Hc HU HV Hfin Hh. unfold train_epoch. rewrite M_bind_run. simpl.
  apply for_each_invariant_in; [|done].
  intros idx h' Hidx. apply train_batch_zero_rate; try done.
  destruct Hh as (_ & _ & _ & <-). done.
Qed.

(** C8, as the code has it.  With a learning rate of zero the training
    loop, run for any number of epochs, ends with both factor arrays equal
    entry for entry to the ones it started from, provided that the
    gradients computed on the batches are finite and that no factor entry
    is the negative zero. *)
Theorem zero_learning_rate_keeps_factors (data : Dataset) (cfg : Config)
    (g : Globals) :
  F64.is_zero (learning_rate cfg) = true →
  no_neg_zero (user_factors g) = true →
  no_neg_zero (item_factors g) = true →
  gradients_finite cfg g = true →
  user_factors (cell_train data cfg g).2 = user_factors g ∧
  item_factors (cell_train data cfg g).2 = item_factors g.
Proof.
  intros Hc HU HV Hfin.
  assert (H : same_model g (cell_train data cfg g).2).
  { unfold cell_train. apply for_each_invariant; [|by repeat split].
    intros epoch h. by apply train_epoch_zero_rate. }
  destruct H as (? & ? & _). by split.
Qed.

End ZeroLearningRate.

(** A run of three epochs over the exact two-by-two example with a
    learning rate of zero. *)
Lemma zero_learning_rate_witness :
  let cfg := demo_config f0 3 2 in
  let g := (cell_config cfg exact_globals).2 in
  user_factors (cell_train exact_data cfg g).2 = user_factors g ∧
  item_factors (cell_train exact_data cfg g).2 = item_factors g.
Proof.
  apply (zero_learning_rate_keeps_factors (Ext := demo_ext));
    vm_compute; reflexivity.
Defined.

(** C8, as the claim has it, fails on a finite rating too large for the
    gradient: with the rating [2^1023] and all factors 1 the gradient
    overflows to an infinity, zero times infinity is [nan], and one epoch
    with learning rate zero leaves [nan] in both factor rows. *)
Lemma zero_learning_rate_overflow :
  let frame := [ {| user := 1; item := 1; rating := f_huge |} ] in
  let g := demo_globals [[f1]] [[f1]] frame in
  let data := {| n_users := 1; n_items := 1; users := [1];
                 train_ratings := frame; test_ratings := [] |} in
  let g' := (cell_train data (demo_config f0 1 1) g).2 in
  user_factors g' = [[F64.nan]] ∧ item_factors g' = [[F64.nan]] ∧
  user_factors g' ≠ user_factors g.
Proof. vm_compute. by repeat split. Qed.

(** A negative zero among the factors does not survive either: the
    gradient is negative, zero times it is [-0.0], and [-0.0 - (-0.0)] is
    [+0.0]. *)
Lemma zero_learning_rate_negative_zero :
  let frame := [ {| user := 1; item := 1; rating := f1 |} ] in
  let g := demo_globals [[F64.neg_zero]] [[f1]] frame in
  user_factors (update_block (demo_config f0 1 1) 0 g).2 = [[F64.zero]].
Proof. vm_compute. done. Qed.

(** ** The order of the batches *)

Lemma iloc_take_drop {A} (l : list A) (a b : Z) :
  0 ≤ a ≤ b → iloc l a b = take (Z.to_nat (b - a)) (drop (Z.to_nat a) l).
Proof.
  intros Hab. unfold iloc, clip.
  replace (a <? 0) with false by (symmetry; apply Z.ltb_ge; lia).
  replace (b <? 0) with false by (symmetry; apply Z.ltb_ge; lia).
  destruct (Z.le_gt_cases (Z.of_nat (length l)) a) as [Ha|Ha].
  - rewrite !drop_ge by lia. by rewrite !take_nil.
  - rewrite (Z.min_l a) by lia.
    destruct (Z.le_gt_cases b (Z.of_nat (length l))) as [Hb|Hb].
    + by rewrite (Z.min_l b) by lia.
    + rewrite (Z.min_r b) by lia.
      rewrite !take_ge; [done| |]; rewrite length_drop; lia.
Qed.

(** The first [j] slices of width [bs], one after the other, are the first
    [j * bs] rows. *)
Lemma concat_slices {A} (l : list A) (bs : Z) (j : nat) :
  0 < bs →
  concat ((λ idx, iloc l (idx * bs) ((idx + 1) * bs)) <$> seqZ 0 (Z.of_nat j))
  = take (Z.to_nat (Z.of_nat j * bs)) l.
Proof.
  intros Hbs. induction j as [|j IH].
  - done.
  - rewrite seqZ_S, fmap_app, concat_app, IH. simpl. rewrite app_nil_r.
    rewrite iloc_take_drop by lia.
    rewrite Z.add_0_l, take_take_drop. f_equal. lia.
Qed.

Lemma ceil_div_covers (n bs : Z) : 0 < bs → n ≤ ceil_div n bs * bs.
Proof.
  intros Hbs. unfold ceil_div.
  pose proof (Z.mul_div_le (- n) bs Hbs). lia.
Qed.

Lemma ceil_div_nonneg (n bs : Z) : 0 < bs → 0 ≤ n → 0 ≤ ceil_div n bs.
Proof.
  intros Hbs Hn. unfold ceil_div.
  assert ((- n) / bs ≤ 0); [|lia].
  apply Z.div_le_upper_bound; lia.
Qed.

Section BatchOrder.
Context `{Ext : Externals}.

(** Training never rebinds [ratings] or [num_batches]. *)
Lemma train_batch_keeps_frame (data : Dataset) (cfg : Config) (idx : Z)
    (g : Globals) :
  ratings (train_batch data cfg idx g).2 = ratings g ∧
  num_batches (train_batch data cfg idx g).2 = num_batches g.
Proof.
  assert (Hupd : ratings (update_block cfg idx g).2 = ratings g ∧
                 num_batches (update_block cfg idx g).2 = num_batches g).
  { destruct (update_block_state cfg idx g)
      as [->|(ue & ie & U & _ & _ & _ & [->|(V & _ & ->)])]; done. }
  unfold train_batch. rewrite M_bind_run.
  destruct (update_block cfg idx g) as [[batch|e] h]; simpl in *; [|done].
  destruct (monitor_block_factors data idx batch h) as (_ & _ & -> & -> & _).
  done.
Qed.

Lemma start_of_epoch_keeps_frame (data : Dataset) (cfg : Config) (e : Z)
    (g : Globals) :
  ratings (start_of_epoch data cfg e g) = ratings g ∧
  num_batches (start_of_epoch data cfg e g) = num_batches g.
Proof.
  unfold start_of_epoch.
  apply (for_each_invariant
           (λ h, ratings h = ratings g ∧ num_batches h = num_batches g));
    [|done].
  intros epoch h [Hr Hn]. unfold train_epoch. rewrite M_bind_run. simpl.
  apply (for_each_invariant
           (λ h, ratings h = ratings g ∧ num_batches h = num_batches g));
    [|done].
  intros idx h' [Hr' Hn'].
  destruct (train_batch_keeps_frame data cfg idx h') as [-> ->]. done.
Qed.

Lemma numbered_fmap {A} (f : Z → A) (n : Z) :
  numbered (f <$> seqZ 0 n) = (λ idx, (idx, f idx)) <$> seqZ 0 n.
Proof.
  unfold numbered. rewrite length_fmap, length_seqZ.
  replace (seqZ 0 (Z.of_nat (Z.to_nat n))) with (seqZ 0 n)
    by (unfold seqZ; by rewrite Nat2Z.id).
  induction (seqZ 0 n) as [|x l IH]; simpl; [done|]. by f_equal.
Qed.

(** One pass of the inner loop at [idx] is [train_on] at the slice the
    pass takes from the frame. *)
Lemma train_batch_on (data : Dataset) (cfg : Config) (idx : Z) (g : Globals) :
  train_batch data cfg idx g = train_on data cfg (idx, minibatch cfg g idx) g.
Proof. reflexivity. Qed.

(** The inner loop is the pass [train_on] applied to the batches sliced
    from the frame, one index after the other: no pass rebinds [ratings],
    so every slice is taken from the same frame. *)
Lemma train_batches_fold (data : Dataset) (cfg : Config) (l : list Z)
    (g : Globals) :
  for_each (train_batch data cfg) l g
  = for_each (train_on data cfg) ((λ idx, (idx, minibatch cfg g idx)) <$> l) g.
Proof.
  assert (H : ∀ h, ratings h = ratings g →
            for_each (train_batch data cfg) l h
            = for_each (train_on data cfg)
                ((λ idx, (idx, minibatch cfg g idx)) <$> l) h); [|by apply H].
  induction l as [|idx l IH]; intros h Hh; [done|].
  rewrite fmap_cons. cbn [for_each]. rewrite !M_bind_run.
  assert (Hstep : train_batch data cfg idx h
                  = train_on data cfg (idx, minibatch cfg g idx) h).
  { unfold minibatch. rewrite <- Hh. exact (train_batch_on data cfg idx h). }
  rewrite <- Hstep.
  destruct (train_batch_keeps_frame data cfg idx h) as [Hr _].
  destruct (train_batch data cfg idx h) as [[[]|e] h']; [|done].
  apply IH. simpl in Hr. by rewrite Hr.
Qed.

(** The run of an epoch is the pass [train_on] folded over the epoch's
    batches, in their order, each with its position. *)
Lemma train_epoch_folds (data : Dataset) (cfg : Config) (epoch : Z)
    (g : Globals) :
  train_epoch data cfg epoch g
  = for_each (train_on data cfg) (numbered (epoch_batches cfg g)) g.
Proof.
  unfold train_epoch, epoch_batches, range. rewrite M_bind_run. simpl.
  by rewrite train_batches_fold, numbered_fmap.
Qed.

(** C3, as the code has it.  The training frame is shuffled once, with the
    configured seed, before training.  Whatever the epoch [e], the run of
    the epoch is the training pass applied, in order, to the consecutive
    slices of [batch_size] rows of that one shuffled frame: the same
    batches in the same order in every epoch, which together are the whole
    shuffled frame. *)
Theorem epoch_batches_fixed (data : Dataset) (cfg : Config) (g0 : Globals)
    (e : Z) :
  0 < batch_size cfg →
  let g := (cell_config cfg (cell_init data cfg g0).2).2 in
  let shuffled := df_sample (train_ratings data) (seed cfg) in
  let ge := start_of_epoch data cfg e g in
  train_epoch data cfg e ge
    = for_each (train_on data cfg) (numbered (epoch_batches cfg ge)) ge ∧
  epoch_batches cfg ge =
    (λ idx, iloc shuffled (idx * batch_size cfg) ((idx + 1) * batch_size cfg))
    <$> range (ceil_div (Z.of_nat (length shuffled)) (batch_size cfg)) ∧
  concat (epoch_batches cfg ge) = shuffled.
Proof.
  intros Hbs g shuffled ge.
  assert (Hg : ratings g = shuffled ∧
               num_batches g =
                 ceil_div (Z.of_nat (length shuffled)) (batch_size cfg)).
  { subst g shuffled. unfold cell_config, cell_init.
    destruct (np_random_normal _ _ _) as [U s1].
    destruct (np_random_normal _ _ _) as [V s2]. simpl.
    destruct (Z.eqb_spec (batch_size cfg) 0); [lia|done]. }
  destruct Hg as [Hr Hn].
  destruct (start_of_epoch_keeps_frame data cfg e g) as [Hr' Hn'].
  fold ge in Hr', Hn'.
  assert (Hbatches : epoch_batches cfg ge =
            (λ idx, iloc shuffled (idx * batch_size cfg)
                                  ((idx + 1) * batch_size cfg))
            <$> range (ceil_div (Z.of_nat (length shuffled)) (batch_size cfg))).
  { unfold epoch_batches, minibatch. by rewrite Hr', Hn', Hr, Hn. }
  split_and!; [apply train_epoch_folds|done|].
  rewrite Hbatches. unfold range.
  pose proof (ceil_div_nonneg (Z.of_nat (length shuffled)) (batch_size cfg)
                Hbs ltac:(lia)) as Hk.
  pose proof (ceil_div_covers (Z.of_nat (length shuffled)) (batch_size cfg)
                Hbs) as Hcov.
  rewrite <- (Z2Nat.id _ Hk), concat_slices by done.
  apply take_ge. rewrite Z2Nat.id by done. lia.
Qed.

End BatchOrder.

(** Three epochs over the exact two-by-two example in batches of two. *)
Lemma epoch_batches_fixed_witness :
  let cfg := demo_config f0 3 2 in
  let g := (cell_config cfg (cell_init exact_data cfg exact_globals).2).2 in
  let shuffled := demo_sample (train_ratings exact_data) (seed cfg) in
  let ge := start_of_epoch exact_data cfg 2 g in
  train_epoch exact_data cfg 2 ge
    = for_each (train_on exact_data cfg) (numbered (epoch_batches cfg ge)) ge ∧
  epoch_batches cfg ge =
    (λ idx, iloc shuffled (idx * batch_size cfg) ((idx + 1) * batch_size cfg))
    <$> range (ceil_div (Z.of_nat (length shuffled)) (batch_size cfg)) ∧
  concat (epoch_batches cfg ge) = shuffled.
Proof.
  apply (epoch_batches_fixed (Ext := demo_ext) exact_data (demo_config f0 3 2)
           exact_globals 2).
  vm_compute. reflexivity.
Defined.

(** C3, as the claim has it, fails: the second epoch (index 1) goes
    through the batches of the first, in the same order, and not through
    the batches of a shuffle under [seed + 1]; its run is the training pass
    over the former, and the training pass over the latter ends with other
    user factors. *)
Lemma second_epoch_repeats_order :
  let cfg := demo_config f1 2 2 in
  let g := (cell_config cfg (cell_init exact_data cfg exact_globals).2).2 in
  let g1 := start_of_epoch exact_data cfg 1 g in
  let first := epoch_batches cfg (start_of_epoch exact_data cfg 0 g) in
  let reshuffled := demo_sample (train_ratings exact_data) (seed cfg + 1) in
  let again :=
    (λ idx, iloc reshuffled (idx * batch_size cfg) ((idx + 1) * batch_size cfg))
    <$> range (num_batches g) in
  let run := train_epoch exact_data cfg 1 g1 in
  let other := for_each (train_on exact_data cfg) (numbered again) g1 in
  epoch_batches cfg g1 = first ∧
  epoch_batches cfg g1 ≠ again ∧
  run = for_each (train_on exact_data cfg) (numbered first) g1 ∧
  run.1 = Ok tt ∧
  other.1 = Ok tt ∧
  user_factors run.2 ≠ user_factors other.2.
Proof.
  intros cfg g g1 first reshuffled again run other.
  assert (H1 : epoch_batches cfg g1 = first) by (vm_compute; reflexivity).
  split_and!.
  - exact H1.
  - vm_compute. intros H. discriminate H.
  - unfold run. rewrite train_epoch_folds, H1. reflexivity.
  - vm_compute. reflexivity.
  - vm_compute. reflexivity.
  - vm_compute. intros H. discriminate H.
Qed.

(** ** Two runs *)

Section Determinism.
Context `{Ext : Externals}.

(** After the first two cells nothing is left of the globals the run
    started from. *)
Lemma init_config_fresh (data : Dataset) (cfg : Config) (g1 g2 : Globals) :
  batch_size cfg ≠ 0 →
  (cell_config cfg (cell_init data cfg g1).2) =
  (cell_config cfg (cell_init data cfg g2).2).
Proof.
  intros Hbs. unfold cell_config, cell_init.
  destruct (np_random_normal _ _ _) as [U s1].
  destruct (np_random_normal _ _ _) as [V s2]. simpl.
  by destruct (Z.eqb_spec (batch_size cfg) 0).
Qed.

(** C9, as the code has it.  [fit] run twice on the same data (training
    ratings, held-out ratings, numbers of users and of items) and the same
    configuration, from any two states of the notebook's globals (generator
    state, old factor arrays, old traces), ends with the same outcome and
    with equal user and item factor arrays, entry for entry; every
    recommendation list computed from the two results is the same list in
    the same order. *)
Theorem fit_deterministic (data : Dataset) (cfg : Config) (g1 g2 : Globals) :
  (fit data cfg g1).1 = (fit data cfg g2).1 ∧
  user_factors (fit data cfg g1).2 = user_factors (fit data cfg g2).2 ∧
  item_factors (fit data cfg g1).2 = item_factors (fit data cfg g2).2 ∧
  ∀ user_ratings user N remove_known_pos,
    get_recommendations user_ratings data (fit data cfg g1).2 user N
      remove_known_pos =
    get_recommendations user_ratings data (fit data cfg g2).2 user N
      remove_known_pos.
Proof.
  assert (H : (fit data cfg g1).1 = (fit data cfg g2).1 ∧
              user_factors (fit data cfg g1).2 = user_factors (fit data cfg g2).2 ∧
              item_factors (fit data cfg g1).2 = item_factors (fit data cfg g2).2).
  { unfold fit. rewrite !M_bind_run.
    assert (Hi1 : (cell_init data cfg g1).1 = Ok tt).
    { unfold cell_init. by repeat destruct (np_random_normal _ _ _). }
    assert (Hi2 : (cell_init data cfg g2).1 = Ok tt).
    { unfold cell_init. by repeat destruct (np_random_normal _ _ _). }
    destruct (cell_init data cfg g1) as [r1 h1] eqn:E1.
    destruct (cell_init data cfg g2) as [r2 h2] eqn:E2.
    simpl in Hi1, Hi2. subst r1 r2. rewrite !M_bind_run.
    destruct (Z.eq_dec (batch_size cfg) 0) as [Hbs|Hbs].
    - unfold cell_config. rewrite Hbs. simpl.
      replace h1 with (cell_init data cfg g1).2 by (by rewrite E1).
      replace h2 with (cell_init data cfg g2).2 by (by rewrite E2).
      unfold cell_init.
      destruct (np_random_normal _ _ _) as [U s1].
      by destruct (np_random_normal _ _ _) as [V s2].
    - pose proof (init_config_fresh data cfg g1 g2 Hbs) as Hfresh.
      rewrite E1, E2 in Hfresh. simpl in Hfresh. rewrite Hfresh. done. }
  destruct H as (H1 & HU & HV). split_and!; try done.
  intros user_ratings user N remove_known_pos.
  unfold get_recommendations. by rewrite HU, HV.
Qed.

End Determinism.

(** C9, as the claim has it, fails: two runs with the same training
    ratings, numbers of users and items, d, epochs, batch size, learning
    rate and seed, from the same globals, that differ in the held-out
    ratings only.  The monitoring tick of the first batch indexes the item
    factors by the held-out user ids: with the rating of user 1 the run
    completes, with the rating of user 3 (of three, over two items) it
    raises IndexError after the first update, and the two runs end with
    different user and item factors. *)
Lemma fit_depends_on_held_out_ratings :
  let cfg := demo_config f1 1 2 in
  let g := demo_globals [] [] [] in
  let run1 := fit (held_out_data 1 2) cfg g in
  let run2 := fit (held_out_data 3 1) cfg g in
  train_ratings (held_out_data 1 2) = train_ratings (held_out_data 3 1) ∧
  n_users (held_out_data 1 2) = n_users (held_out_data 3 1) ∧
  n_items (held_out_data 1 2) = n_items (held_out_data 3 1) ∧
  run1.1 = Ok tt ∧
  run2.1 = Raise IndexError ∧
  user_factors run1.2 ≠ user_factors run2.2 ∧
  item_factors run1.2 ≠ item_factors run2.2.
Proof.
  vm_compute. split_and!; try done; intros H; discriminate H.
Qed.

(** ** Precision at N *)

(** The number of hits is the number of distinct ids that occur in both
    lists. *)
Lemma intersect1d_length (a b : list Z) :
  length (intersect1d a b) = size (list_to_set a ∩ list_to_set b : gset Z).
Proof.
  unfold intersect1d, unique. rewrite merge_sort_Permutation.
  rewrite <- (size_list_to_set (C := gset Z)) by apply NoDup_remove_dups.
  f_equal. apply set_eq. intros x.
  rewrite elem_of_list_to_set, elem_of_remove_dups, list_elem_of_filter,
    elem_of_intersection, !elem_of_list_to_set.
  tauto.
Qed.

Lemma remove_dups_length_le (l : list Z) :
  (length (remove_dups l) ≤ length l)%nat.
Proof.
  induction l as [|x l IH]; simpl; [done|]. case_decide; simpl; lia.
Qed.

Lemma intersect1d_length_le (a b : list Z) :
  (length (intersect1d a b) ≤ length a)%nat.
Proof.
  unfold intersect1d, unique. rewrite merge_sort_Permutation.
  etrans; [apply remove_dups_length_le|apply length_filter].
Qed.

Lemma intersect1d_disjoint (a b : list Z) :
  (∀ x, x ∈ a → x ∉ b) → intersect1d a b = [].
Proof.
  intros Hdisj. unfold intersect1d.
  replace (filter (λ x, x ∈ b) a) with (@nil Z); [done|].
  symmetry. induction a as [|x a IH]; [done|].
  rewrite filter_cons_False by (apply Hdisj; left).
  apply IH. intros y Hy. apply Hdisj. by right.
Qed.

Lemma intersect1d_all (a b : list Z) :
  NoDup a → (∀ x, x ∈ a → x ∈ b) → length (intersect1d a b) = length a.
Proof.
  intros Hnd Hall. unfold intersect1d, unique. rewrite merge_sort_Permutation.
  replace (filter (λ x, x ∈ b) a) with a.
  - f_equal. clear Hall. induction Hnd as [|x a Hx _ IH]; simpl; [done|].
    case_decide; [done|]. simpl. by rewrite IH.
  - clear Hnd. induction a as [|x a IH]; [done|].
    rewrite filter_cons_True by (apply Hall; left).
    f_equal. apply IH. intros y Hy. apply Hall. by right.
Qed.

Lemma ratio_bounds (h N : Z) :
  0 ≤ h ≤ N → 0 < N → (0 <= inject_Z h / inject_Z N <= 1)%Q.
Proof.
  intros Hh HN. destruct N as [|p|p]; try lia.
  unfold Qdiv, Qinv, Qmult, Qle, inject_Z. simpl. lia.
Qed.

Lemma ratio_zero (N : Z) : (inject_Z 0 / inject_Z N == 0)%Q.
Proof. unfold Qdiv, Qmult, Qeq, inject_Z. simpl. lia. Qed.

Lemma ratio_one (N : Z) : 0 < N → (inject_Z N / inject_Z N == 1)%Q.
Proof.
  intros HN. destruct N as [|p|p]; try lia.
  unfold Qdiv, Qinv, Qmult, Qeq, inject_Z. simpl. lia.
Qed.

(** C7.  For a user present in the relevance sets, a recommendation list of
    at most [N] ids and [N > 0], the precision is the number of ids common
    to the recommendations and the user's relevant items, divided by [N];
    it lies between 0 and 1, is 0 when no recommended id is relevant, and
    is 1 when the list holds [N] distinct ids that are all relevant. *)
Theorem precision_at_N_bounds (relevant_items : list (Z * list Z)) (user : Z)
    (rel recommendations : list Z) (N : Z) :
  dict_get relevant_items user = Ok rel →
  Z.of_nat (length recommendations) ≤ N →
  0 < N →
  ∃ q : Q,
    precision_at_N relevant_items user recommendations N = Ok q ∧
    q = (inject_Z (Z.of_nat (size (list_to_set recommendations ∩ list_to_set rel
                                     : gset Z)))
         / inject_Z N)%Q ∧
    (0 <= q <= 1)%Q ∧
    ((∀ x, x ∈ recommendations → x ∉ rel) → (q == 0)%Q) ∧
    (NoDup recommendations → Z.of_nat (length recommendations) = N →
     (∀ x, x ∈ recommendations → x ∈ rel) → (q == 1)%Q).
Proof.
  intros Hrel Hlen HN.
  pose proof (intersect1d_length_le recommendations rel) as Hle.
  exists (inject_Z (Z.of_nat (length (intersect1d recommendations rel)))
          / inject_Z N)%Q.
  split_and!.
  - unfold precision_at_N. rewrite Hrel. simpl. unfold true_div.
    by destruct (Z.eqb_spec N 0); [lia|].
  - by rewrite intersect1d_length.
  - apply ratio_bounds; lia.
  - apply ratio_bounds; lia.
  - intros Hdisj. rewrite intersect1d_disjoint by done. apply ratio_zero.
  - intros Hnd HlenN Hall. rewrite intersect1d_all, HlenN by done.
    by apply ratio_one.
Qed.

(** Two recommendations for the user of the three-item example, one of
    them relevant: the precision at 2 is one half. *)
Lemma precision_at_N_witness :
  ∃ q : Q,
    precision_at_N (get_relevant_items (test_ratings shelf_data)) 1 [3; 2] 2
      = Ok q ∧
    q = (inject_Z (Z.of_nat (size (list_to_set [3%Z; 2%Z] ∩ list_to_set [3%Z]
                                     : gset Z)))
         / inject_Z 2)%Q ∧
    (0 <= q <= 1)%Q ∧
    ((∀ x, x ∈ [3; 2] → x ∉ [3]) → (q == 0)%Q) ∧
    (NoDup [3; 2] → Z.of_nat (length [3; 2]) = 2 →
     (∀ x, x ∈ [3; 2] → x ∈ [3]) → (q == 1)%Q).
Proof.
  apply (precision_at_N_bounds
           (get_relevant_items (test_ratings shelf_data)) 1 [3] [3; 2] 2).
  - vm_compute. reflexivity.
  - simpl. lia.
  - lia.
Defined.

(** ** Mean precision *)

Lemma Qsum_Permutation (l k : list Q) : l ≡ₚ k → (Qsum l == Qsum k)%Q.
Proof.
  induction 1 as [|x l k _ IH|x y l|l k m _ IH1 _ IH2]; simpl.
  - reflexivity.
  - by rewrite IH.
  - rewrite !Qplus_assoc. by rewrite (Qplus_comm y x).
  - by rewrite IH1.
Qed.

Lemma computed_values_all_None (P : gmap Z (option Q)) :
  (∀ k v, P !! k = Some v → v = None) → computed_values P = [].
Proof.
  intros HP. unfold computed_values.
  assert (H : Forall (λ kv, kv.2 = None) (map_to_list P)).
  { apply Forall_forall. intros [k v] Hkv. simpl.
    apply elem_of_map_to_list in Hkv. by eapply HP. }
  induction H as [|[k v] l Hv _ IH]; simpl in *; [done|]. by subst v.
Qed.

(** Binding a key that was unbound, or bound to [None], adds one value. *)
Lemma computed_values_insert (P : gmap Z (option Q)) (u : Z) (p : Q) :
  P !! u = None ∨ P !! u = Some None →
  computed_values (<[u := Some p]> P) ≡ₚ p :: computed_values P.
Proof.
  unfold computed_values. intros [Hu|Hu].
  - by rewrite map_to_list_insert.
  - rewrite <- insert_delete_eq.
    rewrite map_to_list_insert by apply lookup_delete_eq.
    rewrite <- (map_to_list_delete P u None Hu). done.
Qed.

Lemma fromkeys_lookup (keys : list Z) (k : Z) (v : option Q) :
  fromkeys keys !! k = Some v → v = None.
Proof.
  unfold fromkeys. intros H. apply elem_of_list_to_map_2 in H.
  apply list_elem_of_fmap in H as (u & [= _ ->] & _). done.
Qed.

Section Evaluation.
Context `{Ext : Externals}.

Lemma eval_user_Ok (user_ratings : UserRatings) (data : Dataset)
    (g : Globals) (relevant_items : list (Z * list Z)) (N : Z)
    (P P' : gmap Z (option Q)) (u : Z) :
  eval_user user_ratings data g relevant_items N P u = Ok P' →
  ∃ p, user_precision user_ratings data g relevant_items N u p ∧
       P' = <[u := Some p]> P.
Proof.
  unfold eval_user. intros H.
  apply res_bind_Ok in H as (recs & Hrecs & H).
  apply res_bind_Ok in H as (p & Hp & H). injection H as <-.
  exists p. split; [by exists recs|done].
Qed.

(** The loop binds each user it visits to that user's precision; every
    value found afterwards that was not there before is one of these. *)
Lemma eval_loop_values (user_ratings : UserRatings) (data : Dataset)
    (g : Globals) (relevant_items : list (Z * list Z)) (N : Z)
    (us : list Z) (P P' : gmap Z (option Q)) :
  NoDup us →
  (∀ u, u ∈ us → P !! u = None ∨ P !! u = Some None) →
  eval_loop (eval_user user_ratings data g relevant_items N) P us = Ok P' →
  ∃ ps, Forall2 (user_precision user_ratings data g relevant_items N) us ps ∧
        computed_values P' ≡ₚ ps ++ computed_values P.
Proof.
  intros Hnd. revert P. induction Hnd as [|u us Hu _ IH]; intros P Hfree; simpl.
  - intros [= <-]. exists []. split; [constructor|done].
  - intros H. apply res_bind_Ok in H as (P1 & Hstep & Hrest).
    apply eval_user_Ok in Hstep as (p & Hp & ->).
    apply IH in Hrest as (ps & Hps & Hvals).
    + exists (p :: ps). split; [by constructor|].
      rewrite Hvals, computed_values_insert by (apply Hfree; left).
      symmetry. apply Permutation_middle.
    + intros u' Hu'. rewrite lookup_insert_ne by (intros ->; done).
      apply Hfree. by right.
Qed.

Lemma relevant_keys (test : list Rating) :
  fst <$> get_relevant_items test = unique (user <$> test).
Proof.
  unfold get_relevant_items. generalize (unique (user <$> test)) as l.
  induction l as [|u l IH]; simpl; [done|]. by f_equal.
Qed.

Lemma relevant_keys_NoDup (test : list Rating) :
  NoDup (fst <$> get_relevant_items test).
Proof.
  rewrite relevant_keys. unfold unique.
  rewrite merge_sort_Permutation. apply NoDup_remove_dups.
Qed.

Lemma dict_get_first {V} (u : Z) (v : V) (rest : list (Z * V)) :
  dict_get ((u, v) :: rest) u = Ok v.
Proof. unfold dict_get. simpl. by rewrite decide_True. Qed.

Lemma ratio_nonpos (h N : Z) :
  0 ≤ h → N < 0 → (inject_Z h / inject_Z N <= 0)%Q.
Proof.
  intros Hh HN. destruct N as [|p|p]; try lia.
  unfold Qdiv, Qinv, Qmult, Qle, inject_Z. simpl. lia.
Qed.

(** C5, as the code has it.  The evaluation cell binds a precision for
    exactly the users of the relevance sets, and the final figure is the
    arithmetic mean of exactly these values: users of [data.users] without
    held-out ratings stay bound to [None] and are left out.  Nothing checks
    [N] or the user set: with [N = 0] the first division raises
    [ZeroDivisionError], a negative [N] is accepted and gives precisions
    of at most 0, and with no user to evaluate the mean is [nan]. *)
Theorem mean_precision_over_computed (user_ratings : UserRatings)
    (data : Dataset) (g : Globals) (N : Z) :
  let relevant_items := get_relevant_items (test_ratings data) in
  let evaluated := fst <$> relevant_items in
  (∀ P, cell_eval user_ratings data g relevant_items N = Ok P →
     ∃ ps,
       Forall2 (user_precision user_ratings data g relevant_items N)
         evaluated ps ∧
       computed_values P ≡ₚ ps ∧
       match mean_precision P with
       | MeanNaN => evaluated = []
       | MeanIs q =>
           evaluated ≠ [] ∧
           (q == Qsum ps / inject_Z (Z.of_nat (length ps)))%Q
       end) ∧
  (N = 0 → ∀ u rest recommendations,
     evaluated = u :: rest →
     get_recommendations user_ratings data g u N true = Ok recommendations →
     cell_eval user_ratings data g relevant_items N = Raise ZeroDivisionError) ∧
  (N < 0 → ∀ u rel recommendations,
     dict_get relevant_items u = Ok rel →
     ∃ q, precision_at_N relevant_items u recommendations N = Ok q ∧
          (q <= 0)%Q) ∧
  (evaluated = [] →
     cell_eval user_ratings data g relevant_items N = Ok (fromkeys (users data)) ∧
     mean_precision (fromkeys (users data)) = MeanNaN).
Proof.
  intros relevant_items evaluated.
  assert (Hnone : computed_values (fromkeys (users data)) = []).
  { apply computed_values_all_None, fromkeys_lookup. }
  split_and!.
  - intros P HP. unfold cell_eval in HP. fold evaluated in HP.
    apply eval_loop_values in HP as (ps & Hps & Hvals).
    + rewrite Hnone, app_nil_r in Hvals.
      exists ps. split_and!; [done|done|].
      unfold mean_precision, np_mean.
      destruct (computed_values P) as [|c cs] eqn:Hcv.
      * apply Permutation_nil_l in Hvals. subst ps.
        by apply Forall2_nil_inv_r in Hps.
      * split.
        -- intros Hnil. rewrite Hnil in Hps. apply Forall2_nil_inv_l in Hps.
           subst ps. by apply Permutation_nil_r in Hvals.
        -- rewrite (Qsum_Permutation _ _ Hvals).
           by rewrite (Permutation_length Hvals).
    + apply relevant_keys_NoDup.
    + intros u _. destruct (fromkeys (users data) !! u) as [v|] eqn:Hu;
        [|by left]. right. by rewrite (fromkeys_lookup _ _ _ Hu).
  - intros -> u rest recs Hkeys Hrecs. unfold cell_eval. fold evaluated.
    rewrite Hkeys. cbn [eval_loop]. unfold eval_user.
    rewrite Hrecs. cbn [mbind res_bind].
    unfold precision_at_N.
    destruct relevant_items as [|[u' rel] tl]; [done|].
    injection Hkeys as -> _. by rewrite dict_get_first.
  - intros HN u rel recs Hrel. unfold precision_at_N. rewrite Hrel. simpl.
    unfold true_div. destruct (Z.eqb_spec N 0); [lia|].
    eexists. split; [done|]. apply ratio_nonpos; lia.
  - intros Hnil. unfold cell_eval. fold evaluated. rewrite Hnil. simpl.
    split; [done|]. unfold mean_precision. by rewrite Hnone.
Qed.

End Evaluation.

(** The three-item example with [N = -1]: the precision of user 1 is
    computed, and is not positive. *)
Lemma mean_precision_over_computed_witness :
  ∃ q, precision_at_N (get_relevant_items (test_ratings shelf_data)) 1
         [3; 2] (-1) = Ok q ∧ (q <= 0)%Q.
Proof.
  apply (mean_precision_over_computed (Ext := demo_ext) shelf_ratings
           shelf_data shelf_globals (-1)) with (rel := [3]).
  - lia.
  - vm_compute. reflexivity.
Defined.

(** C5, as the claim has it, fails: with [N = -1] the evaluation of the
    three-item example runs to the end and reports a mean precision of
    -1, and with no held-out rating at all it reports [nan]; neither
    raises. *)
Lemma mean_precision_accepts_bad_input :
  let no_test := {| n_users := 1; n_items := 3; users := [1];
                    train_ratings := train_ratings shelf_data;
                    test_ratings := [] |} in
  (P ← cell_eval (Ext := demo_ext) shelf_ratings shelf_data shelf_globals
         (get_relevant_items (test_ratings shelf_data)) (-1);
   mret (mean_precision P)) = Ok (MeanIs (-1 # 1)) ∧
  (P ← cell_eval (Ext := demo_ext) shelf_ratings no_test shelf_globals
         (get_relevant_items (test_ratings no_test)) 10;
   mret (mean_precision P)) = Ok MeanNaN.
Proof. vm_compute. done. Qed.

(** * Further properties of the cells *)

(** ** What the in-place update leaves on each row *)

Lemma put_rows_last (A : matrix) (ks : list nat) (D : matrix) (j r : nat) :
  length ks = length D → (r < length A)%nat →
  ks !! j = Some r → (∀ j', (j < j')%nat → ks !! j' ≠ Some r) →
  Np.put_rows A ks D !! r = D !! j.
Proof.
  revert A D j. induction ks as [|k ks IH]; intros A [|dr D] j Hlen Hr Hj Hlast;
    simpl in *; try done.
  destruct j as [|j]; simpl in *.
  - injection Hj as ->.
    rewrite put_rows_lookup_ne.
    + by apply list_lookup_insert_eq.
    + intros Hin. apply list_elem_of_lookup in Hin as [j' Hj'].
      by apply (Hlast (S j')); [lia|].
  - apply IH; [lia|by rewrite length_insert|done|].
    intros j' Hlt. apply (Hlast (S j')). lia.
Qed.

Lemma mapM_res_length {A B} (f : A → res B) (l : list A) (k : list B) :
  mapM f l = Ok k → length k = length l.
Proof. intros H. apply mapM_res_Ok in H. symmetry. by eapply Forall2_length. Qed.

(** [A[idx] -= B], when it completes: a row that no index selects is as
    before, and a row that some index selects holds its old value minus the
    row of [B] at the last position whose index selects it; what [B] holds
    at the earlier positions of a repeated index has no effect. *)
Theorem isub_rows_last_wins (A : matrix) (idx : list Z) (B A' : matrix) :
  Np.isub_rows A idx B = Ok A' →
  ∃ ks,
    mapM (Np.py_index (length A)) idx = Ok ks ∧
    (∀ r, r ∉ ks → A' !! r = A !! r) ∧
    (∀ j r, ks !! j = Some r → (∀ j', (j < j')%nat → ks !! j' ≠ Some r) →
       ∃ x b, A !! r = Some x ∧ B !! j = Some b ∧
              A' !! r = Some (Np.vsub x b)).
Proof.
  unfold Np.isub_rows. intros H.
  apply res_bind_Ok in H as (ks & Hks & H).
  apply res_bind_Ok in H as (G & HG & H).
  destruct (Np.same_shape G B) eqn:Hshape; [|discriminate]. injection H as <-.
  exists ks. split_and!; [done|by intros r Hr; apply put_rows_lookup_ne|].
  intros j r Hj Hlast.
  pose proof (mapM_res_length _ _ _ HG) as HlenG.
  apply andb_true_iff in Hshape as [HlenB%Nat.eqb_eq _].
  pose proof (mapM_res_Ok _ _ _ HG) as HG2.
  destruct (Forall2_lookup_l _ _ _ _ _ HG2 Hj) as (x & HGj & Hx).
  unfold Np.row in Hx. destruct (A !! r) as [x'|] eqn:HAr; [|discriminate].
  injection Hx as ->.
  destruct (lookup_lt_is_Some_2 B j) as [b Hb].
  { rewrite <- HlenB. by eapply lookup_lt_Some. }
  exists x, b. split_and!; [done|done|].
  rewrite (put_rows_last _ _ _ j).
  - unfold Np.msub. by rewrite lookup_zip_with, HGj, Hb.
  - unfold Np.msub. rewrite length_zip_with. lia.
  - by eapply lookup_lt_Some.
  - done.
  - done.
Qed.

(** A minibatch in which user 1 comes twice: row 0 ends as its old value
    minus the second delta. *)
Lemma isub_rows_last_wins_witness :
  ∃ ks,
    mapM (Np.py_index 1) [0; 0] = Ok ks ∧
    (∀ r, r ∉ ks → [[f3]] !! r = [[f1]] !! r) ∧
    (∀ j r, ks !! j = Some r → (∀ j', (j < j')%nat → ks !! j' ≠ Some r) →
       ∃ x b, [[f1]] !! r = Some x ∧
              [[F64.of_Z (-4)]; [F64.of_Z (-2)]] !! j = Some b ∧
              [[f3]] !! r = Some (Np.vsub x b)).
Proof.
  apply (isub_rows_last_wins [[f1]] [0; 0]
           [[F64.of_Z (-4)]; [F64.of_Z (-2)]] [[f3]]).
  vm_compute. reflexivity.
Defined.

(** ** Exceptions and shapes in a training step *)

(** Once the gather through [idx] has succeeded, the in-place update
    through the same [idx] cannot fail on an index. *)
Lemma take_rows_isub_rows (A : matrix) (idx : list Z) (G B : matrix) :
  Np.take_rows A idx = Ok G →
  ∃ ks, Np.isub_rows A idx B
        = if Np.same_shape G B then Ok (Np.put_rows A ks (Np.msub G B))
          else Raise ValueError.
Proof.
  intros HG. unfold Np.take_rows in HG. apply mapM_res_Ok in HG.
  assert (H : ∃ ks, Forall2 (λ i k, Np.py_index (length A) i = Ok k) idx ks ∧
                    Forall2 (λ k r, Np.row A k = Ok r) ks G).
  { induction HG as [|i r idx G Hi _ (ks & H1 & H2)].
    - exists []. split; constructor.
    - apply res_bind_Ok in Hi as (k & Hk & Hr).
      exists (k :: ks). split; by constructor. }
  destruct H as (ks & H1 & H2). exists ks.
  apply Forall2_mapM_res in H1, H2.
  unfold Np.isub_rows. rewrite H1. simpl. rewrite H2. done.
Qed.

Section StepBehaviour.
Context `{Ext : Externals}.

(** A training step that raises [IndexError] has written nothing: both
    gathers come before the first update, and an update through indices
    that were just gathered cannot fail on an index. *)
Theorem update_block_index_error_atomic (cfg : Config) (idx : Z)
    (g : Globals) :
  (update_block cfg idx g).1 = Raise IndexError →
  (update_block cfg idx g).2 = g.
Proof.
  unfold update_block, mbind, M_bind, lift, get, modify, mret, M_ret.
  cbv zeta.
  destruct (Np.take_rows (user_factors g) _) as [ue|] eqn:Hue; [|done].
  destruct (Np.take_rows (item_factors g) _) as [ie|] eqn:Hie; [|done].
  destruct (take_rows_isub_rows _ _ _
              (Np.smul (learning_rate cfg)
                 (compute_gradients (rating <$> minibatch cfg g idx) ue ie).1)
              Hue) as [ks ->].
  destruct (Np.same_shape ue _); [|discriminate].
  destruct (take_rows_isub_rows _ _ _
              (Np.smul (learning_rate cfg)
                 (compute_gradients (rating <$> minibatch cfg g idx) ue ie).2)
              Hie) as [ks' ->].
  destruct (Np.same_shape ie _); discriminate.
Qed.

End StepBehaviour.

(** A minibatch naming user 3 where there is one user row. *)
Lemma update_block_index_error_atomic_witness :
  let g := demo_globals [[f1]] [[f1]]
             [ {| user := 3; item := 1; rating := f1 |} ] in
  (update_block (demo_config f1 1 1) 0 g).2 = g.
Proof.
  intros g. apply (update_block_index_error_atomic (Ext := demo_ext)).
  vm_compute. reflexivity.
Defined.

Lemma put_rows_widths (A : matrix) (ks : list nat) (D : matrix) :
  Forall2 (λ k r, (length <$> A) !! k = Some (length r)) ks D →
  length <$> Np.put_rows A ks D = length <$> A.
Proof.
  revert A D. induction ks as [|k ks IH]; intros A D H.
  - by destruct D.
  - apply Forall2_cons_inv_l in H as (r & D' & Hk & HD & ->). simpl.
    rewrite IH.
    + rewrite list_fmap_insert. by apply list_insert_id.
    + rewrite list_fmap_insert, list_insert_id; done.
Qed.

(** [A[idx] -= B] keeps the width of every row. *)
Lemma isub_rows_widths (A : matrix) (idx : list Z) (B A' : matrix) :
  Np.isub_rows A idx B = Ok A' → length <$> A' = length <$> A.
Proof.
  unfold Np.isub_rows. intros H.
  apply res_bind_Ok in H as (ks & Hks & H).
  apply res_bind_Ok in H as (G & HG & H).
  destruct (Np.same_shape G B) eqn:Hshape; [|discriminate]. injection H as <-.
  apply put_rows_widths.
  apply mapM_res_Ok in HG.
  unfold Np.same_shape in Hshape.
  apply andb_true_iff in Hshape as [Hlen%Nat.eqb_eq Hw]. clear Hks.
  revert B Hlen Hw.
  induction HG as [|k x ks G Hk _ IH]; intros [|b B] Hlen Hw; simpl in *;
    try done; constructor.
  - apply andb_true_iff in Hw as [Hxb%Nat.eqb_eq _].
    unfold Np.row in Hk. destruct (A !! k) as [x'|] eqn:HAk; [|discriminate].
    injection Hk as ->. rewrite list_lookup_fmap, HAk. simpl.
    unfold Np.vsub. rewrite length_zip_with. f_equal. lia.
  - apply andb_true_iff in Hw as [_ Hw]. apply IH; [lia|done].
Qed.

Section Shapes.
Context `{Ext : Externals}.

Lemma train_batch_same_frame (data : Dataset) (cfg : Config) (idx : Z)
    (g h : Globals) :
  same_frame g h → same_frame g (train_batch data cfg idx h).2.
Proof.
  intros (HU & HV & Hr & Hn & Hs).
  assert (Hupd : same_frame g (update_block cfg idx h).2).
  { destruct (update_block_state cfg idx h)
      as [->|(ue & ie & U & _ & _ & HU' & [->|(V & HV' & ->)])];
      unfold same_frame; simpl; try done.
    - apply isub_rows_widths in HU'. by rewrite HU'.
    - apply isub_rows_widths in HU', HV'. by rewrite HU', HV'. }
  unfold train_batch. rewrite M_bind_run.
  destruct (update_block cfg idx h) as [[batch|e] h']; simpl in Hupd; [|done].
  destruct (monitor_block_factors data idx batch h') as (E1 & E2 & E3 & E4 & E5).
  unfold same_frame. by rewrite E1, E2, E3, E4, E5.
Qed.

(** Training, however it ends, leaves the number of rows of both factor
    arrays and the width of every row as they were, and does not touch the
    shuffled frame, the batch count or the generator state: it changes
    factor entries and traces only. *)
Theorem cell_train_keeps_shapes (data : Dataset) (cfg : Config) (g : Globals) :
  let g' := (cell_train data cfg g).2 in
  length <$> user_factors g' = length <$> user_factors g ∧
  length <$> item_factors g' = length <$> item_factors g ∧
  ratings g' = ratings g ∧ num_batches g' = num_batches g ∧ rng g' = rng g.
Proof.
  apply (for_each_invariant (same_frame g)); [|by repeat split].
  intros epoch h Hh. unfold train_epoch. rewrite M_bind_run. simpl.
  apply for_each_invariant; [|done].
  intros idx h'. apply train_batch_same_frame.
Qed.

End Shapes.

(** ** The two traces *)

(** One tick for batch 0, 300, 600, ... of [n] batches. *)
Lemma ticks_count (n : nat) :
  sum_list_with (λ idx, if idx mod 300 =? 0 then 1%nat else 0%nat)
    (seqZ 0 (Z.of_nat n))
  = Z.to_nat ((Z.of_nat n + 299) / 300).
Proof.
  induction n as [|n IH]; [done|].
  rewrite seqZ_S, sum_list_with_app, IH. simpl. rewrite Z.add_0_l.
  pose proof (Z.div_mod (Z.of_nat n) 300 ltac:(lia)) as Hdm.
  pose proof (Z.mod_pos_bound (Z.of_nat n) 300 ltac:(lia)) as Hb.
  assert (0 ≤ Z.of_nat n / 300) by (apply Z.div_pos; lia).
  destruct (Z.eqb_spec (Z.of_nat n mod 300) 0) as [Hm|Hm]; simpl.
  - rewrite <- (Z.div_unique (Z.of_nat (S n) + 299) 300 (Z.of_nat n / 300 + 1) 0)
      by lia.
    rewrite <- (Z.div_unique (Z.of_nat n + 299) 300 (Z.of_nat n / 300) 299)
      by lia.
    lia.
  - rewrite <- (Z.div_unique (Z.of_nat (S n) + 299) 300 (Z.of_nat n / 300 + 1)
                  (Z.of_nat n mod 300)) by lia.
    rewrite <- (Z.div_unique (Z.of_nat n + 299) 300 (Z.of_nat n / 300 + 1)
                  (Z.of_nat n mod 300 - 1)) by lia.
    lia.
Qed.

Section Traces.
Context `{Ext : Externals}.

Lemma for_each_count {A} (I : Globals → Prop) (μ : Globals → nat)
    (c : A → nat) (body : A → M unit) (l : list A) (g : Globals) :
  (∀ x h, I h → (body x h).1 = Ok tt →
          I (body x h).2 ∧ μ (body x h).2 = (μ h + c x)%nat) →
  I g → (for_each body l g).1 = Ok tt →
  I (for_each body l g).2 ∧
  μ (for_each body l g).2 = (μ g + sum_list_with c l)%nat.
Proof.
  intros Hbody. revert g. induction l as [|x l IH]; intros g Hg; simpl.
  - intros _. split; [done|lia].
  - rewrite M_bind_run. specialize (Hbody x g Hg).
    destruct (body x g) as [[[]|e] g'] eqn:Hx; simpl in *; [|discriminate].
    destruct (Hbody eq_refl) as [Hg' Hμ]. intros Hrest.
    destruct (IH g' Hg' Hrest) as [HI Hμ']. split; [done|]. lia.
Qed.

Lemma update_block_traces (cfg : Config) (idx : Z) (g : Globals) :
  rmse_trace (update_block cfg idx g).2 = rmse_trace g ∧
  rmse_test_trace (update_block cfg idx g).2 = rmse_test_trace g.
Proof.
  destruct (update_block_state cfg idx g)
    as [->|(ue & ie & U & _ & _ & _ & [->|(V & _ & ->)])]; done.
Qed.

(** A tick appends one value to each trace when it completes and nothing
    otherwise; off the cadence nothing is appended. *)
Lemma monitor_block_traces (data : Dataset) (idx : Z)
    (batch : list Rating * matrix * matrix) (g : Globals) :
  let out := monitor_block data idx batch g in
  (out.1 = Ok tt ∧ idx mod 300 = 0 ∧
   ∃ r rt, rmse_trace out.2 = rmse_trace g ++ [r] ∧
           rmse_test_trace out.2 = rmse_test_trace g ++ [rt]) ∨
  ((out.1 = Ok tt → idx mod 300 ≠ 0) ∧
   rmse_trace out.2 = rmse_trace g ∧
   rmse_test_trace out.2 = rmse_test_trace g).
Proof.
  destruct batch as [[mb ue] ie].
  unfold monitor_block, mbind, M_bind, lift, get, modify, mret, M_ret.
  destruct (Z.eqb_spec (idx mod 300) 0) as [Htick|Htick]; [|by right].
  destruct (get_rmse (rating <$> mb) ue ie) as [r|]; [|by right].
  destruct (Np.take_rows (user_factors g) _); [|by right].
  destruct (Np.take_rows (item_factors g) _); [|by right].
  destruct (get_rmse _ _ _) as [rt|]; [|by right].
  left. simpl. split_and!; [done|done|]. by exists r, rt.
Qed.

Lemma train_batch_traces (data : Dataset) (cfg : Config) (idx : Z)
    (g : Globals) :
  let out := train_batch data cfg idx g in
  (out.1 = Ok tt ∧ idx mod 300 = 0 ∧
   ∃ r rt, rmse_trace out.2 = rmse_trace g ++ [r] ∧
           rmse_test_trace out.2 = rmse_test_trace g ++ [rt]) ∨
  ((out.1 = Ok tt → idx mod 300 ≠ 0) ∧
   rmse_trace out.2 = rmse_trace g ∧
   rmse_test_trace out.2 = rmse_test_trace g).
Proof.
  destruct (update_block_traces cfg idx g) as [E1 E2].
  unfold train_batch. rewrite M_bind_run.
  destruct (update_block cfg idx g) as [[batch|e] h]; simpl in *.
  - rewrite <- E1, <- E2. apply monitor_block_traces.
  - right. by split_and!.
Qed.

(** The traces are append-only and grow together: after training, however
    it ends, each trace is its old content followed by new values, and
    both have received the same number of new values. *)
Theorem cell_train_traces_append (data : Dataset) (cfg : Config)
    (g : Globals) :
  let g' := (cell_train data cfg g).2 in
  ∃ t1 t2,
    rmse_trace g' = rmse_trace g ++ t1 ∧
    rmse_test_trace g' = rmse_test_trace g ++ t2 ∧
    length t1 = length t2.
Proof.
  set (P := λ h : Globals,
         ∃ t1 t2, rmse_trace h = rmse_trace g ++ t1 ∧
                  rmse_test_trace h = rmse_test_trace g ++ t2 ∧
                  length t1 = length t2).
  apply (for_each_invariant P).
  - intros epoch h Hh. unfold train_epoch. rewrite M_bind_run. simpl.
    apply (for_each_invariant P); [|done].
    intros idx h' (t1 & t2 & H1 & H2 & Hlen).
    destruct (train_batch_traces data cfg idx h')
      as [(_ & _ & r & rt & E1 & E2)|(_ & E1 & E2)].
    + exists (t1 ++ [r]), (t2 ++ [rt]).
      rewrite E1, E2, H1, H2, !app_assoc, !length_app. simpl.
      split_and!; [done|done|lia].
    + exists t1, t2. by rewrite E1, E2.
  - exists [], []. by rewrite !app_nil_r.
Qed.

(** A training run that completes has recorded one value per trace for
    batch 0, 300, 600, ... of every epoch: each trace has grown by
    [epochs * ceil(num_batches / 300)] values. *)
Theorem cell_train_tick_count (data : Dataset) (cfg : Config) (g : Globals) :
  (cell_train data cfg g).1 = Ok tt →
  let g' := (cell_train data cfg g).2 in
  let ticks := (Z.to_nat (epochs cfg)
                * Z.to_nat ((num_batches g + 299) / 300))%nat in
  length (rmse_trace g') = (length (rmse_trace g) + ticks)%nat ∧
  length (rmse_test_trace g') = (length (rmse_test_trace g) + ticks)%nat.
Proof.
  intros Hok g' ticks.
  assert (Hgen : ∀ tr : Globals → list float,
            (∀ idx h, (train_batch data cfg idx h).1 = Ok tt →
               length (tr (train_batch data cfg idx h).2)
               = (length (tr h)
                  + (if (idx mod 300 =? 0)%Z then 1 else 0))%nat) →
            length (tr g') = (length (tr g) + ticks)%nat).
  { intros tr Htr. subst g'. unfold cell_train in Hok |- *.
    pose proof (for_each_count
                  (λ h, num_batches h = num_batches g)
                  (λ h, length (tr h))
                  (λ _, Z.to_nat ((num_batches g + 299) / 300))
                  (train_epoch data cfg) (range (epochs cfg)) g) as Hcount.
    destruct Hcount as [_ Hcount]; [|done|done|].
    - intros epoch h Hh Hrun. unfold train_epoch in Hrun |- *.
      rewrite M_bind_run in Hrun |- *. simpl in Hrun |- *.
      pose proof (for_each_count
                    (λ h', num_batches h' = num_batches g)
                    (λ h', length (tr h'))
                    (λ idx, if idx mod 300 =? 0 then 1%nat else 0%nat)
                    (train_batch data cfg) (range (num_batches h)) h) as Hinner.
      destruct Hinner as [Hnb Hinner]; [|done|done|].
      + intros idx h' Hh' Hstep.
        destruct (train_batch_keeps_frame data cfg idx h') as [_ Hn].
        split; [by rewrite Hn|]. by apply Htr.
      + split; [done|]. rewrite Hinner, Hh. f_equal. unfold range.
        destruct (Z.le_gt_cases 0 (num_batches g)) as [Hpos|Hneg].
        * rewrite <- (Z2Nat.id (num_batches g)) at 1 by done.
          rewrite ticks_count. by rewrite Z2Nat.id.
        * rewrite seqZ_nil by lia. simpl. symmetry.
          apply Z2Nat.nonpos.
          assert ((num_batches g + 299) / 300 < 1); [|lia].
          apply Z.div_lt_upper_bound; lia.
    - rewrite Hcount. f_equal. subst ticks. unfold range.
      generalize (Z.to_nat ((num_batches g + 299) / 300)) as k. intros k.
      rewrite <- (length_seqZ 0 (epochs cfg)).
      induction (seqZ 0 (epochs cfg)) as [|e l IH]; simpl; [done|].
      by rewrite IH. }
  split; apply Hgen; intros idx h Hstep;
    destruct (train_batch_traces data cfg idx h)
      as [(_ & Htick & r & rt & E1 & E2)|(Hno & E1 & E2)];
    rewrite ?E1, ?E2, ?length_app, ?Htick; simpl; try done;
    specialize (Hno Hstep);
    by destruct (Z.eqb_spec (idx mod 300) 0); [|lia].
Qed.

End Traces.

(** Three epochs of two batches each: three ticks. *)
Lemma cell_train_tick_count_witness :
  let cfg := demo_config f0 3 2 in
  let g := (cell_config cfg exact_globals).2 in
  length (rmse_trace (cell_train exact_data cfg g).2) = 3%nat ∧
  length (rmse_test_trace (cell_train exact_data cfg g).2) = 3%nat.
Proof.
  apply (cell_train_tick_count (Ext := demo_ext) exact_data
           (demo_config f0 3 2) (cell_config (demo_config f0 3 2) exact_globals).2).
  vm_compute. reflexivity.
Defined.

Section Ticks.
Context `{Ext : Externals}.

(** The training RMSE recorded at a tick is computed from the rows
    gathered at the start of the step, before the step's own update: it
    is the RMSE of the batch against the factors the step started from. *)
Theorem train_batch_tick_rmse (data : Dataset) (cfg : Config) (idx : Z)
    (g : Globals) :
  idx mod 300 = 0 →
  (train_batch data cfg idx g).1 = Ok tt →
  let mb := minibatch cfg g idx in
  ∃ ue ie r,
    Np.take_rows (user_factors g) (user_rows mb) = Ok ue ∧
    Np.take_rows (item_factors g) (item_rows mb) = Ok ie ∧
    get_rmse (rating <$> mb) ue ie = Ok r ∧
    rmse_trace (train_batch data cfg idx g).2 = rmse_trace g ++ [r].
Proof.
  intros Htick. unfold train_batch, update_block, monitor_block.
  unfold mbind, M_bind, lift, get, modify, mret, M_ret. cbv zeta.
  destruct (Np.take_rows (user_factors g) _) as [ue|]; [|discriminate].
  destruct (Np.take_rows (item_factors g) _) as [ie|]; [|discriminate].
  destruct (Np.isub_rows (user_factors g) _ _) as [U|]; [|discriminate].
  destruct (Np.isub_rows (item_factors g) _ _) as [V|]; [|discriminate].
  rewrite Htick. simpl.
  destruct (get_rmse _ ue ie) as [r|] eqn:Hr; [|discriminate].
  destruct (Np.take_rows U _) as [tu|]; [|discriminate].
  destruct (Np.take_rows V _) as [ti|]; [|discriminate].
  destruct (get_rmse (rating <$> test_ratings data) tu ti); [|discriminate].
  intros _. by exists ue, ie, r.
Qed.

(** With no held-out rating a tick cannot fail on the held-out set: it
    records [nan] as the test RMSE. *)
Theorem monitor_block_empty_test (data : Dataset) (idx : Z)
    (mb : list Rating) (ue ie : matrix) (r : float) (g : Globals) :
  test_ratings data = [] →
  idx mod 300 = 0 →
  get_rmse (rating <$> mb) ue ie = Ok r →
  monitor_block data idx (mb, ue, ie) g
  = (Ok tt, append_traces r F64.nan g).
Proof.
  intros Htest Htick Hr. unfold monitor_block.
  unfold mbind, M_bind, lift, get, modify, mret, M_ret.
  by rewrite Htick, Hr, Htest.
Qed.

End Ticks.

(** The first step of the exact two-by-two example records the RMSE of
    its batch of two ratings. *)
Lemma train_batch_tick_rmse_witness :
  let cfg := demo_config f1 1 2 in
  let mb := minibatch cfg exact_globals 0 in
  ∃ ue ie r,
    Np.take_rows (user_factors exact_globals) (user_rows mb) = Ok ue ∧
    Np.take_rows (item_factors exact_globals) (item_rows mb) = Ok ie ∧
    get_rmse (rating <$> mb) ue ie = Ok r ∧
    rmse_trace (train_batch exact_data cfg 0 exact_globals).2
      = rmse_trace exact_globals ++ [r].
Proof.
  apply (train_batch_tick_rmse (Ext := demo_ext) exact_data
           (demo_config f1 1 2) 0 exact_globals).
  - reflexivity.
  - vm_compute. reflexivity.
Defined.

Lemma monitor_block_empty_test_witness :
  let data := {| n_users := 2; n_items := 2; users := [1; 2];
                 train_ratings := train_ratings exact_data;
                 test_ratings := [] |} in
  monitor_block (Ext := demo_ext) data 0
    ([ {| user := 1; item := 1; rating := f4 |} ], [[f2]], [[f2]])
    exact_globals
  = (Ok tt, append_traces f0 F64.nan exact_globals).
Proof.
  apply (monitor_block_empty_test (Ext := demo_ext)).
  - reflexivity.
  - reflexivity.
  - vm_compute. reflexivity.
Defined.

(** ** The batches of an epoch *)

Lemma ceil_div_tight (n bs : Z) : 0 < bs → (ceil_div n bs - 1) * bs < n.
Proof.
  intros Hbs. unfold ceil_div.
  pose proof (Z.div_mod (- n) bs ltac:(lia)) as Hdm.
  pose proof (Z.mod_pos_bound (- n) bs Hbs) as Hb. nia.
Qed.

Lemma iloc_length {A} (l : list A) (a b : Z) :
  0 ≤ a ≤ b →
  Z.of_nat (length (iloc l a b))
  = Z.min b (Z.of_nat (length l)) - Z.min a (Z.of_nat (length l)).
Proof.
  intros Hab. rewrite iloc_take_drop by done.
  rewrite length_take, length_drop. lia.
Qed.

Section Batches.
Context `{Ext : Externals}.

(** With a positive batch size, the batch count fixed by the
    configuration cell cuts the frame into full batches and one last batch
    that may be short but is never empty. *)
Theorem minibatch_sizes (cfg : Config) (h : Globals) (idx : Z) :
  0 < batch_size cfg →
  let g := (cell_config cfg h).2 in
  0 ≤ idx < num_batches g →
  let n := Z.of_nat (length (minibatch cfg g idx)) in
  1 ≤ n ≤ batch_size cfg ∧
  (idx < num_batches g - 1 → n = batch_size cfg) ∧
  (idx = num_batches g - 1 →
   n = Z.of_nat (length (ratings h)) - idx * batch_size cfg).
Proof.
  intros Hbs g. 
  assert (Hg : ratings g = ratings h ∧
               num_batches g
               = ceil_div (Z.of_nat (length (ratings h))) (batch_size cfg)).
  { subst g. unfold cell_config.
    by destruct (Z.eqb_spec (batch_size cfg) 0); [lia|]. }
  destruct Hg as [Hr Hn]. rewrite Hn. intros Hidx n. subst n.
  unfold minibatch. rewrite Hr, iloc_length by nia.
  pose proof (ceil_div_tight (Z.of_nat (length (ratings h))) (batch_size cfg)
                Hbs) as Htight.
  pose proof (ceil_div_covers (Z.of_nat (length (ratings h))) (batch_size cfg)
                Hbs) as Hcov.
  split_and!; [nia|nia|intros Hlt; nia|intros Hlast; nia].
Qed.

Lemma cell_train_no_batches (data : Dataset) (cfg : Config) (g : Globals) :
  num_batches g ≤ 0 → cell_train data cfg g = (Ok tt, g).
Proof.
  intros Hn. unfold cell_train.
  induction (range (epochs cfg)) as [|e l IH]; simpl; [done|].
  rewrite M_bind_run. unfold train_epoch at 1. rewrite M_bind_run. simpl.
  unfold range at 1. rewrite seqZ_nil by done. simpl. apply IH.
Qed.

(** With a batch size of zero or less [fit] never takes a training step:
    a batch size of zero stops it at the configuration cell with
    [ZeroDivisionError], a negative one gives a batch count of at most zero
    and [fit] completes; either way the factors are the initial draws. *)
Theorem fit_degenerate_batch_size (data : Dataset) (cfg : Config)
    (g : Globals) :
  batch_size cfg ≤ 0 →
  (fit data cfg g).1
    = (if batch_size cfg =? 0 then Raise ZeroDivisionError else Ok tt) ∧
  user_factors (fit data cfg g).2 = user_factors (cell_init data cfg g).2 ∧
  item_factors (fit data cfg g).2 = item_factors (cell_init data cfg g).2.
Proof.
  intros Hbs.
  assert (Hinit : (cell_init data cfg g).1 = Ok tt).
  { unfold cell_init. by repeat destruct (np_random_normal _ _ _). }
  unfold fit. rewrite !M_bind_run.
  destruct (cell_init data cfg g) as [r1 h] eqn:Einit. simpl in Hinit.
  subst r1. rewrite M_bind_run. simpl.
  unfold cell_config. destruct (Z.eqb_spec (batch_size cfg) 0) as [Hz|Hnz].
  - done.
  - rewrite cell_train_no_batches; [done|]. simpl. unfold ceil_div.
    pose proof (Z.div_mod (- Z.of_nat (length (ratings h))) (batch_size cfg)
                  Hnz) as Hdm.
    pose proof (Z.mod_neg_bound (- Z.of_nat (length (ratings h)))
                  (batch_size cfg) ltac:(lia)) as Hb.
    nia.
Qed.

End Batches.

(** The exact two-by-two example cut into batches of two: the first batch
    is full, the second and last holds the one rating left. *)
Lemma minibatch_sizes_witness :
  let cfg := demo_config f1 1 2 in
  let g := (cell_config cfg exact_globals).2 in
  let n := Z.of_nat (length (minibatch cfg g 1)) in
  1 ≤ n ≤ 2 ∧ (1 < num_batches g - 1 → n = 2) ∧
  (1 = num_batches g - 1 → n = Z.of_nat (length (ratings exact_globals)) - 1 * 2).
Proof.
  apply (minibatch_sizes (Ext := demo_ext) (demo_config f1 1 2)
           exact_globals 1).
  - simpl. lia.
  - vm_compute. split; [discriminate|reflexivity].
Defined.

(** A batch size of -1. *)
Lemma fit_degenerate_batch_size_witness :
  let cfg := demo_config f1 2 (-1) in
  (fit exact_data cfg exact_globals).1 = Ok tt ∧
  user_factors (fit exact_data cfg exact_globals).2
    = user_factors (cell_init exact_data cfg exact_globals).2 ∧
  item_factors (fit exact_data cfg exact_globals).2
    = item_factors (cell_init exact_data cfg exact_globals).2.
Proof.
  apply (fit_degenerate_batch_size (Ext := demo_ext) exact_data
           (demo_config f1 2 (-1)) exact_globals).
  simpl. lia.
Defined.

(** ** Relevant items *)

Lemma Sorted_le_NoDup_lt (l : list Z) :
  Sorted Z.le l → NoDup l → Sorted Z.lt l.
Proof.
  induction 1 as [|x l Hs IH Hhd]; intros Hnd; [constructor|].
  apply NoDup_cons in Hnd as [Hx Hnd]. constructor; [by apply IH|].
  destruct Hhd as [|y l Hxy]; constructor.
  assert (x ≠ y) by (intros ->; apply Hx; left). lia.
Qed.

Lemma unique_spec (l : list Z) :
  Sorted Z.lt (unique l) ∧ ∀ x, x ∈ unique l ↔ x ∈ l.
Proof.
  unfold unique. split.
  - apply Sorted_le_NoDup_lt; [apply Sorted_merge_sort, _|].
    rewrite merge_sort_Permutation. apply NoDup_remove_dups.
  - intros x. by rewrite merge_sort_Permutation, elem_of_remove_dups.
Qed.

(** [dct[k]] on a dict built by mapping its keys. *)
Lemma dict_get_fmap {V} (f : Z → V) (ks : list Z) (k : Z) :
  dict_get ((λ u, (u, f u)) <$> ks) k
  = if decide (k ∈ ks) then Ok (f k) else Raise KeyError.
Proof.
  unfold dict_get. induction ks as [|u ks IH]; simpl in *; [done|].
  destruct (decide (u = k)) as [->|Hne]; simpl.
  - by rewrite decide_True by left.
  - destruct (list_find _ _) as [[i [u' v]]|]; simpl in *.
    + destruct (decide (k ∈ ks)) as [Hin|Hout]; [|done].
      rewrite decide_True by (by right). done.
    + destruct (decide (k ∈ ks)) as [Hin|Hout]; [done|].
      rewrite decide_False; [done|].
      intros [?|?]%elem_of_cons; congruence.
Qed.

(** The keys of [get_relevant_items] are the users that occur in the test
    frame, each once, in strictly ascending order. *)
Theorem relevant_items_keys (test : list Rating) :
  Sorted Z.lt (fst <$> get_relevant_items test) ∧
  ∀ u, u ∈ fst <$> get_relevant_items test ↔ ∃ r, r ∈ test ∧ user r = u.
Proof.
  rewrite relevant_keys. destruct (unique_spec (user <$> test)) as [Hs Hin].
  split; [done|]. intros u. rewrite Hin, list_elem_of_fmap.
  split; [intros (r & -> & Hr)|intros (r & Hr & <-)]; by exists r.
Qed.

(** Looking a user up in the relevant items gives the items of that user's
    test rows, in the order of the rows, and this list is never empty; a
    user without a test row is a [KeyError]. *)
Theorem relevant_items_lookup (test : list Rating) (u : Z) :
  ((∃ r, r ∈ test ∧ user r = u) →
   dict_get (get_relevant_items test) u
     = Ok (item <$> filter (λ r, user r = u) test) ∧
   item <$> filter (λ r, user r = u) test ≠ []) ∧
  ((∀ r, r ∈ test → user r ≠ u) →
   dict_get (get_relevant_items test) u = Raise KeyError).
Proof.
  unfold get_relevant_items. rewrite dict_get_fmap.
  destruct (unique_spec (user <$> test)) as [_ Hin]. split.
  - intros (r & Hr & Hu). rewrite decide_True.
    + split; [done|]. intros Hnil. apply fmap_nil_inv in Hnil.
      assert (r ∈ filter (λ r, user r = u) test)
        by (by apply list_elem_of_filter).
      rewrite Hnil in H. by apply elem_of_nil in H.
    + apply Hin, list_elem_of_fmap. by exists r.
  - intros Hno. rewrite decide_False; [done|].
    intros (r & Hu & Hr)%Hin%list_elem_of_fmap. by apply (Hno r).
Qed.

Lemma concat_groups {A} (key : A → Z) (ks : list Z) (l : list A) :
  NoDup ks → (∀ x, x ∈ l → key x ∈ ks) →
  concat ((λ u, filter (λ x, key x = u) l) <$> ks) ≡ₚ l.
Proof.
  intros Hnd. revert l. induction Hnd as [|k ks Hk _ IH]; intros l Hcov.
  - destruct l as [|x l]; [done|].
    exfalso. eapply not_elem_of_nil, (Hcov x). left.
  - rewrite fmap_cons, concat_cons.
    etrans; [|apply (filter_app_complement (λ x, key x = k) l)].
    apply Permutation_app; [done|].
    assert (Heq : (λ u, filter (λ x, key x = u) l) <$> ks
                  = (λ u, filter (λ x, key x = u)
                            (filter (λ x, ¬ key x = k) l)) <$> ks).
    { apply list_fmap_ext. intros i u Hu.
      rewrite list_filter_filter. apply list_filter_iff. intros x.
      split; [|tauto]. intros Hxu. split; [done|]. intros Hxk.
      apply Hk. rewrite <- Hxk, Hxu. by eapply list_elem_of_lookup_2. }
    rewrite Heq. apply IH.
    intros x [Hx Hin]%list_elem_of_filter.
    specialize (Hcov x Hin). apply elem_of_cons in Hcov as [?|?]; done.
Qed.

(** Grouping loses or repeats nothing: the relevant items of all users,
    put together, are the items of the test rows, one for one. *)
Theorem relevant_items_partition (test : list Rating) :
  concat (snd <$> get_relevant_items test) ≡ₚ item <$> test.
Proof.
  unfold get_relevant_items. rewrite <- list_fmap_compose.
  destruct (unique_spec (user <$> test)) as [_ Hin].
  assert (Hnd : NoDup (unique (user <$> test))).
  { unfold unique. rewrite merge_sort_Permutation. apply NoDup_remove_dups. }
  rewrite <- (concat_groups user (unique (user <$> test)) test) at 2;
    [|done|].
  - generalize (unique (user <$> test)) as ks. intros ks.
    induction ks as [|k ks IH]; simpl; [done|].
    by rewrite fmap_app, IH.
  - intros r Hr. apply Hin, list_elem_of_fmap. by exists r.
Qed.

(** ** The evaluation loop *)

Lemma Qsum_bounds (l : list Q) :
  Forall (λ q, 0 <= q <= 1)%Q l →
  (0 <= Qsum l <= inject_Z (Z.of_nat (length l)))%Q.
Proof.
  induction 1 as [|q l [Hq0 Hq1] _ [IH0 IH1]]; simpl Qsum.
  - split; apply Qle_refl.
  - split.
    + rewrite <- (Qplus_0_l 0). by apply Qplus_le_compat.
    + replace (Z.of_nat (length (q :: l))) with (1 + Z.of_nat (length l))
        by (simpl length; lia).
      rewrite inject_Z_plus. by apply Qplus_le_compat.
Qed.

Lemma np_mean_bounds (l : list Q) :
  Forall (λ q, 0 <= q <= 1)%Q l →
  match np_mean l with
  | MeanNaN => l = []
  | MeanIs q => (0 <= q <= 1)%Q
  end.
Proof.
  intros Hl. destruct l as [|q0 l]; [done|].
  destruct (Qsum_bounds _ Hl) as [H0 H1]. unfold np_mean.
  assert (Hpos : (0 < inject_Z (Z.of_nat (length (q0 :: l))))%Q).
  { unfold Qlt. simpl. lia. }
  split.
  - apply Qle_shift_div_l; [done|]. by rewrite Qmult_0_l.
  - apply Qle_shift_div_r; [done|]. by rewrite Qmult_1_l.
Qed.

Section EvaluationLoop.
Context `{Ext : Externals}.

Lemma get_recommendations_length (user_ratings : UserRatings) (data : Dataset)
    (g : Globals) (user N : Z) (remove_known_pos : bool)
    (recommendations : Predictions) :
  0 < N →
  get_recommendations user_ratings data g user N remove_known_pos
    = Ok recommendations →
  Z.of_nat (length recommendations) ≤ N.
Proof.
  intros HN. unfold get_recommendations. intros H.
  apply res_bind_Ok in H as (preds & _ & H). injection H as <-.
  rewrite collect_until_pos, length_take by done. lia.
Qed.

Lemma user_precision_bounds (user_ratings : UserRatings) (data : Dataset)
    (g : Globals) (relevant_items : list (Z * list Z)) (N u : Z) (p : Q) :
  0 < N →
  user_precision user_ratings data g relevant_items N u p →
  (0 <= p <= 1)%Q.
Proof.
  intros HN (recs & Hrecs & Hp).
  apply get_recommendations_length in Hrecs; [|done].
  unfold precision_at_N in Hp. apply res_bind_Ok in Hp as (rel & _ & Hp).
  unfold true_div in Hp. destruct (Z.eqb_spec N 0); [lia|]. injection Hp as <-.
  pose proof (intersect1d_length_le (fst <$> recs) rel) as Hle.
  rewrite length_fmap in Hle. apply ratio_bounds; lia.
Qed.

(** What [prec_at_N] holds after the loop: each user the loop has visited
    is bound to the precision computed for that user, every other key is
    as [dict.fromkeys] made it. *)
Lemma eval_loop_lookup (user_ratings : UserRatings) (data : Dataset)
    (g : Globals) (relevant_items : list (Z * list Z)) (N : Z)
    (us : list Z) (P P' : gmap Z (option Q)) :
  eval_loop (eval_user user_ratings data g relevant_items N) P us = Ok P' →
  (∀ u, u ∈ us →
     ∃ p, user_precision user_ratings data g relevant_items N u p ∧
          P' !! u = Some (Some p)) ∧
  (∀ u, u ∉ us → P' !! u = P !! u).
Proof.
  revert P. induction us as [|u0 us IH]; intros P; simpl.
  - intros [= <-]. split; [|done]. intros u Hu. by apply elem_of_nil in Hu.
  - intros H. apply res_bind_Ok in H as (P1 & Hstep & Hrest).
    apply eval_user_Ok in Hstep as (p0 & Hp0 & ->).
    destruct (IH _ Hrest) as [Hin Hout]. split.
    + intros u Hu. destruct (decide (u ∈ us)) as [Hus|Hus]; [by apply Hin|].
      apply elem_of_cons in Hu as [->|Hu]; [|done].
      exists p0. split; [done|]. rewrite (Hout _ Hus).
      apply lookup_insert_eq.
    + intros u Hu. apply not_elem_of_cons in Hu as [Hne Hu].
      rewrite (Hout _ Hu). by apply lookup_insert_ne.
Qed.

(** After an evaluation that completes, [prec_at_N] binds every user of
    the relevance sets to that user's precision, every other user of
    [data.users] to [None], and no one else. *)
Theorem cell_eval_lookup (user_ratings : UserRatings) (data : Dataset)
    (g : Globals) (relevant_items : list (Z * list Z)) (N : Z)
    (P : gmap Z (option Q)) :
  cell_eval user_ratings data g relevant_items N = Ok P →
  ∀ u,
    (u ∈ fst <$> relevant_items →
     ∃ p, user_precision user_ratings data g relevant_items N u p ∧
          P !! u = Some (Some p)) ∧
    (u ∉ fst <$> relevant_items → u ∈ users data → P !! u = Some None) ∧
    (u ∉ fst <$> relevant_items → u ∉ users data → P !! u = None).
Proof.
  unfold cell_eval. intros H u.
  destruct (eval_loop_lookup _ _ _ _ _ _ _ _ H) as [Hin Hout].
  split_and!.
  - apply Hin.
  - intros Hu Hd. rewrite (Hout _ Hu). unfold fromkeys.
    apply elem_of_list_to_map_1'.
    + intros v Hv. apply list_elem_of_fmap in Hv as (u' & [= _ ->] & _). done.
    + apply list_elem_of_fmap. by exists u.
  - intros Hu Hd. rewrite (Hout _ Hu). unfold fromkeys.
    apply not_elem_of_list_to_map_1. rewrite <- list_fmap_compose.
    intros (u' & -> & Hu')%list_elem_of_fmap. done.
Qed.

(** For [N] of at least 1, every precision an evaluation has computed lies
    between 0 and 1, and so does their mean (which is [nan] only when no
    precision was computed). *)
Theorem cell_eval_bounded (user_ratings : UserRatings) (data : Dataset)
    (g : Globals) (relevant_items : list (Z * list Z)) (N : Z)
    (P : gmap Z (option Q)) :
  0 < N →
  cell_eval user_ratings data g relevant_items N = Ok P →
  Forall (λ q, 0 <= q <= 1)%Q (computed_values P) ∧
  match mean_precision P with
  | MeanNaN => computed_values P = []
  | MeanIs q => (0 <= q <= 1)%Q
  end.
Proof.
  intros HN H. unfold cell_eval in H.
  destruct (eval_loop_lookup _ _ _ _ _ _ _ _ H) as [Hin Hout].
  assert (Hall : Forall (λ q, 0 <= q <= 1)%Q (computed_values P)).
  { apply Forall_forall. intros q Hq. unfold computed_values in Hq.
    apply list_elem_of_omap in Hq as (v & Hv & Hq). simpl in Hq. subst v.
    apply list_elem_of_fmap in Hv as ([u v] & Hv & Huv). simpl in Hv. subst v.
    apply elem_of_map_to_list in Huv.
    destruct (decide (u ∈ fst <$> relevant_items)) as [Hu|Hu].
    - destruct (Hin u Hu) as (p & Hp & HPu).
      rewrite HPu in Huv. injection Huv as <-.
      by eapply user_precision_bounds.
    - rewrite (Hout u Hu) in Huv. by apply fromkeys_lookup in Huv. }
  split; [done|]. by apply np_mean_bounds.
Qed.

Lemma eval_user_Raise (user_ratings : UserRatings) (data : Dataset)
    (g : Globals) (relevant_items : list (Z * list Z)) (N : Z)
    (P : gmap Z (option Q)) (u : Z) (rel : list Z) (e : exn) :
  dict_get relevant_items u = Ok rel →
  eval_user user_ratings data g relevant_items N P u = Raise e →
  (N = 0 ∧ e = ZeroDivisionError) ∨
  get_recommendations user_ratings data g u N true = Raise e.
Proof.
  intros Hrel. unfold eval_user.
  destruct (get_recommendations user_ratings data g u N true) as [recs|e'];
    cbn [mbind res_bind].
  - unfold precision_at_N. rewrite Hrel. cbn [mbind res_bind].
    unfold true_div. destruct (Z.eqb_spec N 0) as [->|HN]; [|discriminate].
    intros [= <-]. by left.
  - intros [= ->]. by right.
Qed.

Lemma eval_loop_raises (user_ratings : UserRatings) (data : Dataset)
    (g : Globals) (relevant_items : list (Z * list Z)) (N : Z)
    (us : list Z) (P : gmap Z (option Q)) (e : exn) :
  (∀ u, u ∈ us → ∃ rel, dict_get relevant_items u = Ok rel) →
  eval_loop (eval_user user_ratings data g relevant_items N) P us = Raise e →
  (N = 0 ∧ e = ZeroDivisionError) ∨
  ∃ u, u ∈ us ∧ get_recommendations user_ratings data g u N true = Raise e.
Proof.
  revert P. induction us as [|u us IH]; intros P Hget; cbn [eval_loop];
    [done|].
  destruct (Hget u ltac:(left)) as [rel Hrel].
  destruct (eval_user user_ratings data g relevant_items N P u) as [P1|e']
    eqn:Hstep; cbn [mbind res_bind].
  - intros Hrest. apply IH in Hrest as [?|(u' & Hu' & He)]; [by left| |].
    + right. exists u'. split; [by right|done].
    + intros u' Hu'. apply Hget. by right.
  - intros [= ->].
    destruct (eval_user_Raise _ _ _ _ _ _ _ _ _ Hrel Hstep) as [?|?];
      [by left|].
    right. exists u. split; [left|done].
Qed.

(** The evaluation never fails on [relevant_items[user]]: when it raises,
    either [N] is 0 and the exception is the [ZeroDivisionError] of the
    division, or the exception is the one [get_recommendations] raised for
    some user of the relevance sets. *)
Theorem cell_eval_raises (user_ratings : UserRatings) (data : Dataset)
    (g : Globals) (relevant_items : list (Z * list Z)) (N : Z) (e : exn) :
  cell_eval user_ratings data g relevant_items N = Raise e →
  (N = 0 ∧ e = ZeroDivisionError) ∨
  ∃ u, u ∈ fst <$> relevant_items ∧
       get_recommendations user_ratings data g u N true = Raise e.
Proof.
  unfold cell_eval. apply eval_loop_raises.
  intros u Hu. unfold dict_get.
  apply list_elem_of_fmap in Hu as ([u' rel] & Hu & Hin).
  simpl in Hu. subst u.
  destruct (list_find_elem_of (λ p, p.1 = u') relevant_items (u', rel) Hin
              eq_refl) as [[i [u2 v]] ->].
  by eexists.
Qed.

End EvaluationLoop.

(** ** Worked instances *)

(** Two distinct rows updated in one go. *)
Lemma isub_rows_distinct_witness :
  scatter_sub_each [[f1]; [f2]] [0; 1] [[f1]; [f1]]
  = Np.isub_rows [[f1]; [f2]] [0; 1] [[f1]; [f1]].
Proof.
  apply (isub_rows_distinct [[f1]; [f2]] [0; 1] [[f1]; [f1]] [0; 1]%nat).
  - vm_compute. reflexivity.
  - apply (bool_decide_unpack _). vm_compute. exact I.
Defined.

(** The best of the two candidates of the three-item example. *)
Lemma get_recommendations_pos_witness :
  get_recommendations (Ext := demo_ext) shelf_ratings shelf_data shelf_globals
    1 1 true
  = Ok (take (Z.to_nat 1) [(3, f3); (2, f2)]).
Proof.
  apply (get_recommendations_pos (Ext := demo_ext)).
  - lia.
  - vm_compute. reflexivity.
Defined.

(** The three-item example evaluated at [N = 2]: one hit out of two for
    user 1. *)
Lemma cell_eval_lookup_witness :
  let relevant_items := get_relevant_items (test_ratings shelf_data) in
  let P : gmap Z (option Q) := {[ 1 := Some (1 # 2) ]} in
  (1 ∈ fst <$> relevant_items →
   ∃ p, user_precision (Ext := demo_ext) shelf_ratings shelf_data
          shelf_globals relevant_items 2 1 p ∧
        P !! 1 = Some (Some p)) ∧
  (1 ∉ fst <$> relevant_items → 1 ∈ users shelf_data → P !! 1 = Some None) ∧
  (1 ∉ fst <$> relevant_items → 1 ∉ users shelf_data → P !! 1 = None).
Proof.
  apply (cell_eval_lookup (Ext := demo_ext) shelf_ratings shelf_data
           shelf_globals (get_relevant_items (test_ratings shelf_data)) 2
           {[ 1 := Some (1 # 2) ]}).
  vm_compute. reflexivity.
Defined.

Lemma cell_eval_bounded_witness :
  let P : gmap Z (option Q) := {[ 1 := Some (1 # 2) ]} in
  Forall (λ q, 0 <= q <= 1)%Q (computed_values P) ∧
  match mean_precision P with
  | MeanNaN => computed_values P = []
  | MeanIs q => (0 <= q <= 1)%Q
  end.
Proof.
  apply (cell_eval_bounded (Ext := demo_ext) shelf_ratings shelf_data
           shelf_globals (get_relevant_items (test_ratings shelf_data)) 2).
  - lia.
  - vm_compute. reflexivity.
Defined.

(** The three-item example evaluated at [N = 0]. *)
Lemma cell_eval_raises_witness :
  (0 = 0 ∧ ZeroDivisionError = ZeroDivisionError) ∨
  ∃ u, u ∈ fst <$> get_relevant_items (test_ratings shelf_data) ∧
       get_recommendations (Ext := demo_ext) shelf_ratings shelf_data
         shelf_globals u 0 true = Raise ZeroDivisionError.
Proof.
  apply (cell_eval_raises (Ext := demo_ext) shelf_ratings shelf_data
           shelf_globals (get_relevant_items (test_ratings shelf_data)) 0).
  vm_compute. reflexivity.
Defined.
